(** * Reminder engine of the events notification bot

    A shallow embedding of the Python sources
    [models/event.py], [models/user.py], [database.py],
    [services/notification_service.py], [utils/scheduler.py] and
    [keyboards/inline.py], with the store side of the handlers that
    subscribe, unsubscribe and confirm a deletion, followed by the
    properties of the reminder engine and of the code around it.

    Conventions.
    - Python [int] is [Z]; [str] is [string] (UTF-8 bytes); [None] is [option].
    - A [datetime] is its naive wall-clock reading in microseconds since
      1970-01-01T00:00:00, together with its UTC offset when it is aware.
      The year range 1..9999 of Python's [datetime] and the 64-bit range of
      SQLite integers are not modelled.
    - The store is the state; Telegram calls and [print] lines are emitted
      effects, collected in program order. *)

From Stdlib Require Import ZArith List String Ascii Bool Lia.
From Stdlib Require Import Permutation Sorting.Sorted DecimalString.
From Stdlib Require DecimalPos OrderedTypeEx.
Import ListNotations.

Local Open Scope string_scope.
Local Open Scope Z_scope.

(* ================================================================== *)
(** ** Python values *)

Module Py.

(** Exceptions that the modelled code can meet. *)
Inductive constraint := NOT_NULL | UNIQUE | FOREIGN_KEY.

Inductive exn :=
| ValueError                        (* datetime.fromisoformat on a malformed text *)
| IntegrityError (c : constraint)   (* sqlite3.IntegrityError *)
| TelegramError                     (* anything a Bot API call raises *)
| SchedulerNotRunningError          (* apscheduler *)
| SchedulerAlreadyRunningError.     (* apscheduler *)

(** [str(n)] for an [int]. *)
Definition str (n : Z) : string := NilZero.string_of_int (Z.to_int n).

(** Truth value of a [str]: empty is false. *)
Definition truthy (s : string) : bool :=
  match s with EmptyString => false | String _ _ => true end.

(** [x or default] for an optional string: [None] and [""] are both falsy. *)
Definition or_else (x : option string) (default : string) : string :=
  match x with
  | Some s => if truthy s then s else default
  | None => default
  end.

Definition nl : string := String "010"%char EmptyString.

(** Zero-padded decimal of width [w] (as [%02d], [%04d], [%06d]). *)
Fixpoint zeros (k : nat) : string :=
  match k with O => "" | S k' => "0" ++ zeros k' end.

Definition pad (w : nat) (n : Z) : string :=
  let s := str n in zeros (w - String.length s) ++ s.

End Py.

(* ================================================================== *)
(** ** The [datetime] library, as far as the bot uses it *)

Module Datetime.

Definition usec_per_sec : Z := 1000000.
Definition usec_per_min : Z := 60 * usec_per_sec.
Definition usec_per_hour : Z := 60 * usec_per_min.
Definition usec_per_day : Z := 24 * usec_per_hour.

(** Proleptic Gregorian calendar: day number of a civil date, 1970-01-01 is 0. *)
Definition days_from_civil (y m d : Z) : Z :=
  let y' := if m <=? 2 then y - 1 else y in
  let era := y' / 400 in
  let yoe := y' - era * 400 in
  let mp := if 2 <? m then m - 3 else m + 9 in
  let doy := (153 * mp + 2) / 5 + d - 1 in
  let doe := yoe * 365 + yoe / 4 - yoe / 100 + doy in
  era * 146097 + doe - 719468.

Definition civil_from_days (z : Z) : Z * Z * Z :=
  let z' := z + 719468 in
  let era := z' / 146097 in
  let doe := z' - era * 146097 in
  let yoe := (doe - doe / 1460 + doe / 36524 - doe / 146096) / 365 in
  let doy := doe - (365 * yoe + yoe / 4 - yoe / 100) in
  let mp := (5 * doy + 2) / 153 in
  let d := doy - (153 * mp + 2) / 5 + 1 in
  let m := if mp <? 10 then mp + 3 else mp - 9 in
  let y := yoe + era * 400 + (if m <=? 2 then 1 else 0) in
  (y, m, d).

Definition is_leap (y : Z) : bool :=
  ((y mod 4 =? 0) && negb (y mod 100 =? 0)) || (y mod 400 =? 0).

Definition days_in_month (y m : Z) : Z :=
  if m =? 2 then (if is_leap y then 29 else 28)
  else if (m =? 4) || (m =? 6) || (m =? 9) || (m =? 11) then 30 else 31.

(** A [datetime] object: [wall] is the naive reading (microseconds since the
    epoch of the fields year..microsecond), [tz] its [utcoffset()] in
    microseconds, [None] for a naive object. *)
Record datetime := { wall : Z; tz : option Z }.

(** An aware [datetime]. *)
Record aware := { local : Z; utcoffset : Z }.

(** The absolute instant of an aware [datetime], microseconds UTC. *)
Definition instant (a : aware) : Z := local a - utcoffset a.

(** A [pytz] zone: the offset in force at a UTC instant (used by
    [datetime.now(tz)] and [astimezone]) and the offset [localize] attaches
    to a naive reading. *)
Record tzinfo := { offset_at : Z -> Z; offset_of_wall : Z -> Z }.

Definition fixed_zone (off : Z) : tzinfo :=
  {| offset_at := fun _ => off; offset_of_wall := fun _ => off |}.

(** [tz.localize(dt)] for a naive [dt]. *)
Definition localize (zone : tzinfo) (w : Z) : aware :=
  {| local := w; utcoffset := offset_of_wall zone w |}.

(** [dt.astimezone(tz)] for an aware [dt] with offset [off]. *)
Definition astimezone (zone : tzinfo) (w off : Z) : aware :=
  let t := w - off in
  {| local := t + offset_at zone t; utcoffset := offset_at zone t |}.

(** [datetime.now(tz)] when the clock reads the instant [t]. *)
Definition now_in (zone : tzinfo) (t : Z) : aware :=
  {| local := t + offset_at zone t; utcoffset := offset_at zone t |}.

(** [dt - timedelta(hours=h)]: field arithmetic, the [tzinfo] is kept. *)
Definition minus_hours (a : aware) (h : Z) : aware :=
  {| local := local a - h * usec_per_hour; utcoffset := utcoffset a |}.

(** [a - b] for two aware objects, as a [timedelta] in microseconds. *)
Definition sub (a b : aware) : Z := instant a - instant b.

(** Calendar fields of a naive reading. *)
Definition date_of (w : Z) : Z * Z * Z := civil_from_days (w / usec_per_day).
Definition hour_of (w : Z) : Z := (w mod usec_per_day) / usec_per_hour.
Definition minute_of (w : Z) : Z := (w mod usec_per_hour) / usec_per_min.
Definition second_of (w : Z) : Z := (w mod usec_per_min) / usec_per_sec.
Definition microsecond_of (w : Z) : Z := w mod usec_per_sec.

Definition of_fields (y mo d h mi s us : Z) : Z :=
  days_from_civil y mo d * usec_per_day
  + h * usec_per_hour + mi * usec_per_min + s * usec_per_sec + us.

(** [dt.strftime("%d.%m.%Y в %H:%M")]. *)
Definition strftime_d_m_Y_H_M (w : Z) : string :=
  let '(y, m, d) := date_of w in
  Py.pad 2 d ++ "." ++ Py.pad 2 m ++ "." ++ Py.pad 4 y ++ " в "
  ++ Py.pad 2 (hour_of w) ++ ":" ++ Py.pad 2 (minute_of w).

(** [dt.isoformat()] of a naive [dt]: the fraction is printed only when the
    microsecond field is not zero. *)
Definition isoformat (w : Z) : string :=
  let '(y, m, d) := date_of w in
  Py.pad 4 y ++ "-" ++ Py.pad 2 m ++ "-" ++ Py.pad 2 d ++ "T"
  ++ Py.pad 2 (hour_of w) ++ ":" ++ Py.pad 2 (minute_of w) ++ ":"
  ++ Py.pad 2 (second_of w)
  ++ (if microsecond_of w =? 0 then "" else "." ++ Py.pad 6 (microsecond_of w)).

(** *** A reader for the texts the bot itself writes

    [datetime.fromisoformat] is a library function; the engine below takes
    it as a parameter.  [read_iso] is the reading of the shapes that
    [isoformat()] prints,
    [YYYY-MM-DD?HH:MM:SS[.ffffff][(+|-)HH:MM]], used to run the engine on
    concrete rows. *)

Definition digit (c : ascii) : option Z :=
  let n := Z.of_N (N_of_ascii c) in
  if (48 <=? n) && (n <=? 57) then Some (n - 48) else None.

Fixpoint digits (k : nat) (acc : Z) (s : string) : option (Z * string) :=
  match k with
  | O => Some (acc, s)
  | S k' =>
      match s with
      | String c rest =>
          match digit c with
          | Some d => digits k' (10 * acc + d) rest
          | None => None
          end
      | EmptyString => None
      end
  end.

Definition expect (c : ascii) (s : string) : option string :=
  match s with
  | String c' rest => if Ascii.eqb c c' then Some rest else None
  | EmptyString => None
  end.

Definition skip1 (s : string) : option string :=
  match s with String _ rest => Some rest | EmptyString => None end.

Definition read_fraction (s : string) : option (Z * string) :=
  match s with
  | String "." rest => digits 6 0 rest
  | _ => Some (0, s)
  end.

Definition read_offset (s : string) : option (option Z) :=
  match s with
  | EmptyString => Some None
  | String sign rest =>
      match (if Ascii.eqb sign "+" then Some 1
             else if Ascii.eqb sign "-" then Some (-1) else None) with
      | None => None
      | Some sg =>
          match digits 2 0 rest with
          | Some (h, r1) =>
              match expect ":" r1 with
              | Some r2 =>
                  match digits 2 0 r2 with
                  | Some (m, EmptyString) =>
                      if (h <? 24) && (m <? 60)
                      then Some (Some (sg * (h * usec_per_hour + m * usec_per_min)))
                      else None
                  | _ => None
                  end
              | None => None
              end
          | None => None
          end
      end
  end.

Definition bind_opt {A B} (x : option A) (f : A -> option B) : option B :=
  match x with Some a => f a | None => None end.

Definition read_iso (s : string) : option datetime :=
  bind_opt (digits 4 0 s) (fun '(y, s) =>
  bind_opt (expect "-" s) (fun s =>
  bind_opt (digits 2 0 s) (fun '(mo, s) =>
  bind_opt (expect "-" s) (fun s =>
  bind_opt (digits 2 0 s) (fun '(d, s) =>
  bind_opt (skip1 s) (fun s =>
  bind_opt (digits 2 0 s) (fun '(h, s) =>
  bind_opt (expect ":" s) (fun s =>
  bind_opt (digits 2 0 s) (fun '(mi, s) =>
  bind_opt (expect ":" s) (fun s =>
  bind_opt (digits 2 0 s) (fun '(sec, s) =>
  bind_opt (read_fraction s) (fun '(us, s) =>
  bind_opt (read_offset s) (fun off =>
    if (1 <=? y) && (1 <=? mo) && (mo <=? 12) && (1 <=? d)
       && (d <=? days_in_month y mo) && (h <? 24) && (mi <? 60) && (sec <? 60)
    then Some {| wall := of_fields y mo d h mi sec us; tz := off |}
    else None))))))))))))).

End Datetime.

(* ================================================================== *)
(** ** The store ([database.py], schema of [Database.init_db]) *)

Module Database.

(** A row of [users]; [telegram_id] is the primary key. *)
Record users_row := {
  telegram_id : Z;
  is_subscribed : Z;
  registered_at : string }.

(** A row of [events]; [created_at] and [updated_at] are left out, no
    notification code reads them. *)
Record events_row := {
  row_id : Z;
  row_title : string;
  row_description : option string;
  row_event_datetime : string;
  row_location : option string;
  row_format : option string;
  row_link : option string;
  row_photo_file_id : option string }.

(** A row of [sent_notifications] is its pair [(event_id, hours_before)];
    the surrogate [id] and [sent_at] are never read back (the engine only
    tests whether the SELECT found a row). *)
Definition sent_row : Type := Z * Z.

Record t := {
  users : list users_row;
  events : list events_row;
  sent_notifications : list sent_row }.

Definition key_eqb (k1 k2 : sent_row) : bool :=
  (fst k1 =? fst k2) && (snd k1 =? snd k2).

(** [SELECT id FROM sent_notifications WHERE event_id = ? AND hours_before = ?]
    through [fetch_one]: the first matching row, if any.  A [None] bound to
    [event_id] is SQL NULL and matches no row. *)
Definition select_sent (event_id : option Z) (hours_before : Z) (db : t)
  : option sent_row :=
  match event_id with
  | None => None
  | Some i => find (key_eqb (i, hours_before)) (sent_notifications db)
  end.

Definition has_event (i : Z) (db : t) : bool :=
  existsb (fun r => row_id r =? i) (events db).

(** [INSERT INTO sent_notifications (event_id, hours_before) VALUES (?, ?)]
    under the table's constraints: [event_id INTEGER NOT NULL],
    [UNIQUE(event_id, hours_before)] and the foreign key into [events]
    ([PRAGMA foreign_keys = ON] is set by [connect]). *)
Definition insert_sent (event_id : option Z) (hours_before : Z) (db : t)
  : Py.exn + t :=
  match event_id with
  | None => inl (Py.IntegrityError Py.NOT_NULL)
  | Some i =>
      if existsb (key_eqb (i, hours_before)) (sent_notifications db)
      then inl (Py.IntegrityError Py.UNIQUE)
      else if negb (has_event i db)
      then inl (Py.IntegrityError Py.FOREIGN_KEY)
      else inr {| users := users db;
                  events := events db;
                  sent_notifications :=
                    (sent_notifications db ++ [(i, hours_before)])%list |}
  end.

(** [SELECT telegram_id FROM users WHERE is_subscribed = 1]. *)
Definition select_subscribed (db : t) : list Z :=
  map telegram_id (filter (fun u => is_subscribed u =? 1) (users db)).

(** [ORDER BY event_datetime ASC]: text order of the column (SQLite's
    BINARY collation), by insertion. *)
Fixpoint insert_by_datetime (r : events_row) (l : list events_row)
  : list events_row :=
  match l with
  | [] => [r]
  | x :: l' =>
      if String.leb (row_event_datetime r) (row_event_datetime x)
      then r :: x :: l'
      else x :: insert_by_datetime r l'
  end.

Fixpoint order_by_datetime (l : list events_row) : list events_row :=
  match l with
  | [] => []
  | r :: l' => insert_by_datetime r (order_by_datetime l')
  end.

(** [SELECT ... FROM events WHERE event_datetime >= ? ORDER BY event_datetime ASC]:
    both sides are TEXT, the comparison is bytewise. *)
Definition select_upcoming (current_time : string) (db : t) : list events_row :=
  order_by_datetime
    (filter (fun r => String.leb current_time (row_event_datetime r)) (events db)).

(** The invariants the schema maintains: primary keys and the UNIQUE pair. *)
Record wf (db : t) : Prop := {
  wf_users : NoDup (map telegram_id (users db));
  wf_events : NoDup (map row_id (events db));
  wf_sent : NoDup (sent_notifications db) }.

End Database.

(* ================================================================== *)
(** ** What the process is started with

    [Config] is filled from the environment when the module is imported and
    never changes; the operating system's local zone decides what the naive
    [datetime.now()] reads; [datetime.fromisoformat] is the library's
    ([None] stands for its [ValueError]). *)

Class Environment := {
  TIMEZONE : Datetime.tzinfo;             (* pytz.timezone(Config.TIMEZONE) *)
  NOTIFICATION_HOURS : list Z;            (* Config.NOTIFICATION_HOURS *)
  system_utcoffset : Z -> Z;              (* local zone of the host, at a UTC instant *)
  fromisoformat : string -> option Datetime.datetime }.

(* ================================================================== *)
(** ** [models/event.py] and [models/user.py] *)

Module Event.

(** The attributes [Event.__init__] sets ([created_at] and [updated_at]
    left out, as in the row). *)
Record t := {
  id : option Z;
  title : string;
  description : string;
  event_datetime : string;
  location : string;
  format : string;
  link : string;
  photo_file_id : string }.

(** [Event(event_id=row[0], title=row[1], ...)]: the constructor replaces
    falsy optional columns by its defaults. *)
Definition of_row (r : Database.events_row) : t :=
  {| id := Some (Database.row_id r);
     title := Database.row_title r;
     description := Py.or_else (Database.row_description r) "";
     event_datetime := Database.row_event_datetime r;
     location := Py.or_else (Database.row_location r) "";
     format := Py.or_else (Database.row_format r) "offline";
     link := Py.or_else (Database.row_link r) "";
     photo_file_id := Py.or_else (Database.row_photo_file_id r) "" |}.

Section Methods.
Context {env : Environment}.

(** [Event.get_upcoming], when the clock reads the instant [now]:
    [current_time = datetime.now().isoformat()] is the naive local reading
    of the host, compared as text by the query. *)
Definition get_upcoming (now : Z) (db : Database.t) : list t :=
  let current_time := Datetime.isoformat (now + system_utcoffset now) in
  map of_row (Database.select_upcoming current_time db).

Definition format_emoji (f : string) : string :=
  if String.eqb f "online" then "💻"
  else if String.eqb f "offline" then "🏢"
  else if String.eqb f "hybrid" then "🔀"
  else "📌".

Definition format_text (f : string) : string :=
  if String.eqb f "online" then "Онлайн"
  else if String.eqb f "offline" then "Офлайн"
  else if String.eqb f "hybrid" then "Гибрид"
  else f.

(** [Event.format_message]. *)
Definition format_message (self : t) : string :=
  let formatted_date :=
    match fromisoformat (event_datetime self) with
    | Some event_dt => Datetime.strftime_d_m_Y_H_M (Datetime.wall event_dt)
    | None => event_datetime self
    end in
  let message := "🎯 <b>" ++ title self ++ "</b>" ++ Py.nl ++ Py.nl in
  let message :=
    if Py.truthy (description self)
    then message ++ description self ++ Py.nl ++ Py.nl else message in
  let message :=
    message ++ "📅 <b>Дата и время:</b> " ++ formatted_date ++ Py.nl in
  let message :=
    if Py.truthy (location self)
    then message ++ "📍 <b>Место:</b> " ++ location self ++ Py.nl
    else message in
  let message :=
    if Py.truthy (format self)
    then message ++ format_emoji (format self) ++ " <b>Формат:</b> "
         ++ format_text (format self) ++ Py.nl
    else message in
  let message :=
    if Py.truthy (link self)
    then message ++ Py.nl ++ "🔗 <a href='" ++ link self
         ++ "'>Ссылка на мероприятие</a>"
    else message in
  message.

End Methods.

End Event.

Module User.

(** [User.get_subscribed_users]. *)
Definition get_subscribed_users (db : Database.t) : list Z :=
  Database.select_subscribed db.

End User.

(* ================================================================== *)
(** ** Effects: the store as state, Telegram calls and printed lines as output *)


(** A call on the Bot API, with the keyword arguments the engine passes. *)
Inductive BotCall :=
| send_photo (chat_id : Z) (photo caption parse_mode : string)
| send_message (chat_id : Z) (text parse_mode : string)
               (disable_web_page_preview : bool).

Definition chat_id_of (c : BotCall) : Z :=
  match c with
  | send_photo u _ _ _ => u
  | send_message u _ _ _ => u
  end.

(** What the engine prints. *)
Inductive Line :=
| new_event_send_failed (user_id : Z) (e : Py.exn)
| reminder_send_failed (user_id : Z) (e : Py.exn)
| event_check_failed (event_id : option Z) (e : Py.exn)
| scheduler_failed (e : Py.exn)
| scheduler_started
| scheduler_stopped.

Inductive Effect :=
| Called (c : BotCall) (returned : bool)  (* a Bot API call, and whether it returned *)
| Printed (l : Line)
| Invoked (e : Event.t) (hours_before : Z).
  (* ghost: [check_and_send_reminders] reached the call of
     [send_upcoming_event_notification] for this pair *)

(** The delivery channel.  [answers] tells whether a call returns ([true]) or
    raises.  Awaiting the call suspends the coroutine; [meanwhile] is what the
    other tasks sharing the store did to it by the time the call resumes. *)
Record Bot := {
  answers : BotCall -> bool;
  meanwhile : Database.t -> Database.t }.

(** A channel on which nothing else touches the store. *)
Definition alone (f : BotCall -> bool) : Bot :=
  {| answers := f; meanwhile := fun db => db |}.

Module M.

Record Outcome (A : Type) := {
  result : Py.exn + A;
  store : Database.t;
  effects : list Effect }.
Arguments result {A} _.
Arguments store {A} _.
Arguments effects {A} _.

Definition t (A : Type) : Type := Database.t -> Outcome A.

Definition ret {A} (a : A) : t A :=
  fun db => {| result := inr a; store := db; effects := [] |}.

Definition raise {A} (e : Py.exn) : t A :=
  fun db => {| result := inl e; store := db; effects := [] |}.

Definition bind {A B} (m : t A) (k : A -> t B) : t B :=
  fun db =>
    let o := m db in
    match result o with
    | inl e => {| result := inl e; store := store o; effects := effects o |}
    | inr a =>
        let o' := k a (store o) in
        {| result := result o'; store := store o';
           effects := (effects o ++ effects o')%list |}
    end.

(** [try: body  except Exception as e: handler(e)]. *)
Definition try_except {A} (body : t A) (handler : Py.exn -> t A) : t A :=
  fun db =>
    let o := body db in
    match result o with
    | inl e =>
        let o' := handler e (store o) in
        {| result := result o'; store := store o';
           effects := (effects o ++ effects o')%list |}
    | inr a => o
    end.

Definition emit (x : Effect) : t unit :=
  fun db => {| result := inr tt; store := db; effects := [x] |}.

Definition print (l : Line) : t unit := emit (Printed l).

(** Reading the store. *)
Definition query {A} (q : Database.t -> A) : t A :=
  fun db => {| result := inr (q db); store := db; effects := [] |}.

(** [db.execute] of a statement that may violate a constraint. *)
Definition execute (stmt : Database.t -> Py.exn + Database.t) : t unit :=
  fun db =>
    match stmt db with
    | inl e => {| result := inl e; store := db; effects := [] |}
    | inr db' => {| result := inr tt; store := db'; effects := [] |}
    end.

(** [await bot.send_photo(...)] / [await bot.send_message(...)]. *)
Definition await_bot (bot : Bot) (c : BotCall) : t unit :=
  fun db =>
    {| result := if answers bot c then inr tt else inl Py.TelegramError;
       store := meanwhile bot db;
       effects := [Called c (answers bot c)] |}.

(** [for x in l: acc = body(acc, x)], for a loop that updates one local. *)
Fixpoint for_fold {A S} (l : list A) (acc : S) (body : S -> A -> t S) : t S :=
  match l with
  | [] => ret acc
  | x :: l' => bind (body acc x) (fun acc' => for_fold l' acc' body)
  end.

Definition for_each {A} (l : list A) (body : A -> t unit) : t unit :=
  for_fold l tt (fun _ x => body x).

End M.

Declare Scope py_scope.
Delimit Scope py_scope with py.
Notation "x <- m ;; k" := (M.bind m (fun x => k))
  (at level 100, m at next level, right associativity) : py_scope.
Notation "m ;; k" := (M.bind m (fun _ => k))
  (at level 100, right associativity) : py_scope.

Local Open Scope py_scope.

(* ================================================================== *)
(** ** [services/notification_service.py] *)

Module NotificationService.

Section Service.
Context {env : Environment}.

(** The body of both fan-out loops: with the photo when the event has one. *)
Definition delivery (event : Event.t) (user_id : Z) (message_text : string)
  : BotCall :=
  if Py.truthy (Event.photo_file_id event)
  then send_photo user_id (Event.photo_file_id event) message_text "HTML"
  else send_message user_id message_text "HTML" true.

Definition new_event_text (event : Event.t) : string :=
  "🎉 <b>Новое мероприятие!</b>" ++ Py.nl ++ Py.nl
  ++ Event.format_message event.

(** [send_new_event_notification(event, bot=None)]. *)
Definition send_new_event_notification (event : Event.t) (bot : option Bot)
  : M.t unit :=
  match bot with
  | None => M.ret tt
  | Some bot =>
      subscribed_users <- M.query User.get_subscribed_users ;;
      let message_text := new_event_text event in
      M.for_each subscribed_users (fun user_id =>
        M.try_except
          (M.await_bot bot (delivery event user_id message_text))
          (fun e => M.print (new_event_send_failed user_id e)))
  end.

(** ["час" if hours_before == 1 else "часа" if 2 <= hours_before <= 4 else "часов"]. *)
Definition hours_text (hours_before : Z) : string :=
  if hours_before =? 1 then "час"
  else if (2 <=? hours_before) && (hours_before <=? 4) then "часа"
  else "часов".

Definition reminder_text (event : Event.t) (hours_before : Z) : string :=
  "⏰ <b>Напоминание: через " ++ Py.str hours_before ++ " "
  ++ hours_text hours_before ++ "</b>" ++ Py.nl ++ Py.nl
  ++ Event.format_message event.

(** One iteration of the reminder fan-out: the [try] around the send,
    [success_count += 1] after it, the [print] in the handler. *)
Definition try_deliver (event : Event.t) (message_text : string) (bot : Bot)
    (success_count user_id : Z) : M.t Z :=
  M.try_except
    (M.await_bot bot (delivery event user_id message_text) ;;
     M.ret (success_count + 1))
    (fun e =>
       M.print (reminder_send_failed user_id e) ;;
       M.ret success_count).

(** The fan-out loop of a reminder; its value is [success_count]. *)
Definition fan_out (event : Event.t) (message_text : string) (bot : Bot)
    (subscribed_users : list Z) : M.t Z :=
  M.for_fold subscribed_users 0 (try_deliver event message_text bot).

(** [send_upcoming_event_notification(event, hours_before, bot)]. *)
Definition send_upcoming_event_notification
    (event : Event.t) (hours_before : Z) (bot : Bot) : M.t unit :=
  existing <- M.query (Database.select_sent (Event.id event) hours_before) ;;
  match existing with
  | Some _ => M.ret tt
  | None =>
      subscribed_users <- M.query User.get_subscribed_users ;;
      let message_text := reminder_text event hours_before in
      success_count <- fan_out event message_text bot subscribed_users ;;
      if 0 <? success_count
      then M.execute (Database.insert_sent (Event.id event) hours_before)
      else M.ret tt
  end.

(** The parsed event time in the configured zone: localized when naive,
    converted when aware. *)
Definition in_timezone (parsed : Datetime.datetime) : Datetime.aware :=
  match Datetime.tz parsed with
  | None => Datetime.localize TIMEZONE (Datetime.wall parsed)
  | Some off => Datetime.astimezone TIMEZONE (Datetime.wall parsed) off
  end.

(** [abs((current_time - notification_time).total_seconds())], in
    microseconds.  [total_seconds()] divides the exact microsecond count
    by [10**6] with correct rounding and 60.0 is a float, so the test
    [time_diff <= 60] is the test below on the exact count. *)
Definition time_diff (current_time notification_time : Datetime.aware) : Z :=
  Z.abs (Datetime.sub current_time notification_time).

Definition within_a_minute (d : Z) : bool := d <=? 60 * Datetime.usec_per_sec.

(** The inner loop over [Config.NOTIFICATION_HOURS]. *)
Definition remind_if_due (event : Event.t) (event_datetime current_time : Datetime.aware)
    (bot : Bot) (hours_before : Z) : M.t unit :=
  let notification_time := Datetime.minus_hours event_datetime hours_before in
  if within_a_minute (time_diff current_time notification_time)
  then M.emit (Invoked event hours_before) ;;
       send_upcoming_event_notification event hours_before bot
  else M.ret tt.

(** The [try] block of the scan, for one event. *)
Definition check_event (bot : Bot) (current_time : Datetime.aware)
    (event : Event.t) : M.t unit :=
  match fromisoformat (Event.event_datetime event) with
  | None => M.raise Py.ValueError
  | Some parsed =>
      let event_datetime := in_timezone parsed in
      M.for_each NOTIFICATION_HOURS
        (remind_if_due event event_datetime current_time bot)
  end.

(** [check_and_send_reminders(bot)], when the clock reads [now]. *)
Definition check_and_send_reminders (bot : Bot) (now : Z) : M.t unit :=
  events <- M.query (Event.get_upcoming now) ;;
  let current_time := Datetime.now_in TIMEZONE now in
  M.for_each events (fun event =>
    M.try_except
      (check_event bot current_time event)
      (fun e => M.print (event_check_failed (Event.id event) e))).

End Service.

End NotificationService.

(* ================================================================== *)
(** ** [utils/scheduler.py] *)

Module NotificationScheduler.

(** APScheduler is not part of the sources: its scheduler object and the calls
    the driver makes on it are an interface; a call yields the exception it
    raises or the scheduler it leaves. *)
Class Apscheduler := {
  AsyncIOScheduler : Type;
  new_scheduler : AsyncIOScheduler;                    (* AsyncIOScheduler() *)
  add_job : string -> AsyncIOScheduler -> AsyncIOScheduler;
    (* add_job(..., trigger=IntervalTrigger(minutes=1), id=job_id, replace_existing=True) *)
  scheduler_start : AsyncIOScheduler -> Py.exn + AsyncIOScheduler;   (* start() *)
  shutdown : AsyncIOScheduler -> Py.exn + AsyncIOScheduler }.        (* shutdown() *)

Section Driver.
Context {lib : Apscheduler}.

(** The [NotificationScheduler] object. *)
Record t := { bot : Bot; scheduler : AsyncIOScheduler }.

(** [__init__]. *)
Definition init (b : Bot) : t := {| bot := b; scheduler := new_scheduler |}.

(** A method of the object returns what it raised or the updated object,
    and the lines it printed. *)
Definition start (self : t) : (Py.exn + t) * list Line :=
  let s := add_job "check_reminders" (scheduler self) in
  match scheduler_start s with
  | inl e => (inl e, [])
  | inr s' => (inr {| bot := bot self; scheduler := s' |}, [scheduler_started])
  end.

Definition stop (self : t) : (Py.exn + t) * list Line :=
  match shutdown (scheduler self) with
  | inl e => (inl e, [])
  | inr s' => (inr {| bot := bot self; scheduler := s' |}, [scheduler_stopped])
  end.

Context {env : Environment}.

(** [_check_reminders]. *)
Definition _check_reminders (self : t) (now : Z) : M.t unit :=
  M.try_except
    (NotificationService.check_and_send_reminders (bot self) now)
    (fun e => M.print (scheduler_failed e)).

End Driver.

End NotificationScheduler.

(* ================================================================== *)
(** ** Vocabulary of the properties *)

Module Spec.

(** An operation that did nothing: it returned, the store is as before and
    nothing was sent or printed. *)
Definition no_op (db : Database.t) : M.Outcome unit :=
  {| M.result := inr tt; M.store := db; M.effects := [] |}.

Definition succeeded (x : Effect) : bool :=
  match x with Called _ true => true | _ => false end.

Definition failed (x : Effect) : bool :=
  match x with Called _ false => true | _ => false end.

Definition addressed_to (u : Z) (x : Effect) : bool :=
  match x with Called c _ => chat_id_of c =? u | _ => false end.

(** How many Bot API calls in a run were made, succeeded, failed. *)
Definition attempts_to (u : Z) (l : list Effect) : nat :=
  List.length (filter (addressed_to u) l).
Definition successes (l : list Effect) : nat := List.length (filter succeeded l).
Definition failures (l : list Effect) : nat := List.length (filter failed l).

(** The rows of the ledger for one key. *)
Definition entries (i h : Z) (db : Database.t) : nat :=
  List.length (filter (Database.key_eqb (i, h)) (Database.sent_notifications db)).

(** The order of [ORDER BY event_datetime]: text order of the column. *)
Definition text_le (r1 r2 : Database.events_row) : Prop :=
  String.leb (Database.row_event_datetime r1) (Database.row_event_datetime r2)
  = true.

(** The store with another ledger. *)
Definition with_ledger (l : list Database.sent_row) (db : Database.t)
  : Database.t :=
  {| Database.users := Database.users db;
     Database.events := Database.events db;
     Database.sent_notifications := l |}.

(** What one recipient of a reminder fan-out leaves in the run. *)
Definition reminder_step (answers : BotCall -> bool) (c : BotCall) : list Effect :=
  if answers c then [Called c true]
  else [Called c false;
        Printed (reminder_send_failed (chat_id_of c) Py.TelegramError)].

Definition new_event_step (answers : BotCall -> bool) (c : BotCall) : list Effect :=
  if answers c then [Called c true]
  else [Called c false;
        Printed (new_event_send_failed (chat_id_of c) Py.TelegramError)].

(** The meaning of the claim on grammar: the form of "час" that Russian
    requires after a cardinal number [n] (nominative singular after 1, 21,
    31, ...; genitive singular after 2-4, 22-24, ...; genitive plural
    otherwise, in particular after 11-14). *)
Definition russian_hour_form (n : Z) : string :=
  let d := n mod 10 in
  let dd := n mod 100 in
  if (d =? 1) && negb (dd =? 11) then "час"
  else if (2 <=? d) && (d <=? 4) && negb ((12 <=? dd) && (dd <=? 14)) then "часа"
  else "часов".

(** The store once the other tasks have run during [n] awaited calls. *)
Fixpoint after_calls (bot : Bot) (n : nat) (db : Database.t) : Database.t :=
  match n with
  | O => db
  | S n' => after_calls bot n' (meanwhile bot db)
  end.

Section Timing.
Context {env : Environment}.

(** The recipients a channel accepts the reminder of [(event, hours)] for. *)
Definition accepts (answers : BotCall -> bool) (event : Event.t) (hours_before : Z)
    (u : Z) : bool :=
  answers (NotificationService.delivery event u
             (NotificationService.reminder_text event hours_before)).

(** What the fan-out of a reminder to [users] leaves in the run. *)
Definition reminder_run (answers : BotCall -> bool) (event : Event.t)
    (hours_before : Z) (users : list Z) : list Effect :=
  flat_map (fun u =>
              reminder_step answers
                (NotificationService.delivery event u
                   (NotificationService.reminder_text event hours_before)))
           users.

(** What the broadcast of a new event to [users] leaves in the run. *)
Definition new_event_run (answers : BotCall -> bool) (event : Event.t)
    (users : list Z) : list Effect :=
  flat_map (fun u =>
              new_event_step answers
                (NotificationService.delivery event u
                   (NotificationService.new_event_text event)))
           users.

(** The instant at which the reminder [hours_before] hours ahead of an
    event is due, given the parsed [event_datetime]. *)
Definition target (parsed : Datetime.datetime) (hours_before : Z) : Z :=
  Datetime.instant (NotificationService.in_timezone parsed)
  - hours_before * Datetime.usec_per_hour.

(** The absolute instant an event text denotes, naive texts being read in
    the configured zone. *)
Definition instant_of_event (e : Event.t) : option Z :=
  match fromisoformat (Event.event_datetime e) with
  | Some parsed => Some (Datetime.instant (NotificationService.in_timezone parsed))
  | None => None
  end.
End Timing.

End Spec.

(* ================================================================== *)
(** ** Concrete deployments and stores, for running the model *)

Module Scenario.

Definition hours (h : Z) : Z := h * Datetime.usec_per_hour.

(** Host and bot both on UTC, the default [NOTIFICATION_HOURS]. *)
Definition utc : Environment :=
  {| TIMEZONE := Datetime.fixed_zone 0;
     NOTIFICATION_HOURS := [24; 1];
     system_utcoffset := fun _ => 0;
     fromisoformat := Datetime.read_iso |}.

(** [TIMEZONE=Europe/Moscow] (UTC+3 all year) on a host whose local zone is UTC. *)
Definition moscow_on_utc_host : Environment :=
  {| TIMEZONE := Datetime.fixed_zone (hours 3);
     NOTIFICATION_HOURS := [24; 1];
     system_utcoffset := fun _ => 0;
     fromisoformat := Datetime.read_iso |}.

Definition party_row (text : string) : Database.events_row :=
  {| Database.row_id := 1;
     Database.row_title := "Party";
     Database.row_description := None;
     Database.row_event_datetime := text;
     Database.row_location := None;
     Database.row_format := Some "offline";
     Database.row_link := None;
     Database.row_photo_file_id := None |}.

Definition party (text : string) : Event.t := Event.of_row (party_row text).

Definition subscriber (u : Z) : Database.users_row :=
  {| Database.telegram_id := u;
     Database.is_subscribed := 1;
     Database.registered_at := "2024-12-01T10:00:00" |}.

(** One event on 2024-12-25 at 18:00 UTC, recipients as given, empty ledger. *)
Definition christmas : string := "2024-12-25T18:00:00+00:00".

Definition store_with (recipients : list Z) : Database.t :=
  {| Database.users := map subscriber recipients;
     Database.events := [party_row christmas];
     Database.sent_notifications := [] |}.

(** The same event entered under [TIMEZONE=Europe/Moscow]. *)
Definition christmas_msk : string := "2024-12-25T18:00:00+03:00".

Definition store_msk : Database.t :=
  {| Database.users := [subscriber 7];
     Database.events := [party_row christmas_msk];
     Database.sent_notifications := [] |}.

(** The scenario of the specification: the event at 18:00 on 2024-12-25,
    lead times 24 and 1, one scan 30 seconds after the 24-hour mark and one
    five minutes before it. *)
Definition T : Z := Datetime.of_fields 2024 12 25 18 0 0 0.
Definition half_a_minute_late : Z := T - hours 24 + 30 * Datetime.usec_per_sec.
Definition five_minutes_early : Z := T - hours 24 - 300 * Datetime.usec_per_sec.

(** [TIMEZONE=America/New_York] in winter (UTC-5) on a host in UTC, and the
    event entered for 18:00 New York time. *)
Definition new_york_on_utc_host : Environment :=
  {| TIMEZONE := Datetime.fixed_zone (hours (-5));
     NOTIFICATION_HOURS := [24; 1];
     system_utcoffset := fun _ => 0;
     fromisoformat := Datetime.read_iso |}.

Definition christmas_nyc : string := "2024-12-25T18:00:00-05:00".

Definition store_nyc : Database.t :=
  {| Database.users := [subscriber 7];
     Database.events := [party_row christmas_nyc];
     Database.sent_notifications := [] |}.

Definition always (b : bool) : BotCall -> bool := fun _ => b.

(** Every call fails for recipient [u], and only for [u]. *)
Definition all_but (u : Z) : BotCall -> bool :=
  fun c => negb (chat_id_of c =? u).

(** A channel during whose calls another writer records the reminder
    [(1, 24)] as sent. *)
Definition racing : Bot :=
  {| answers := always true;
     meanwhile := fun db =>
       if existsb (Database.key_eqb (1, 24)) (Database.sent_notifications db)
       then db
       else Spec.with_ledger
              (Database.sent_notifications db ++ [(1, 24)])%list db |}.

End Scenario.

(* ================================================================== *)
(** ** Further statements on the store

    The statements of [models/user.py] and [models/event.py] that the
    reminder engine itself does not issue.  A function below is one call on
    an open connection, run on its own: no other task writes to the store
    between its statements. *)

Module Sql.

(** A constraint of [users] or [events] that a statement violates
    ([sqlite3.IntegrityError]). *)
Inductive violation :=
| users_telegram_id_not_unique
| events_format_check.

(** [datetime('now')], the default of [registered_at]: UTC, to the second. *)
Definition datetime_now (now : Z) : string :=
  let '(y, m, d) := Datetime.date_of now in
  Py.pad 4 y ++ "-" ++ Py.pad 2 m ++ "-" ++ Py.pad 2 d ++ " "
  ++ Py.pad 2 (Datetime.hour_of now) ++ ":" ++ Py.pad 2 (Datetime.minute_of now)
  ++ ":" ++ Py.pad 2 (Datetime.second_of now).

(** [SELECT telegram_id, is_subscribed, registered_at FROM users WHERE telegram_id = ?]
    through [fetch_one]. *)
Definition select_user (i : Z) (db : Database.t) : option Database.users_row :=
  find (fun u => Database.telegram_id u =? i) (Database.users db).

(** The rows of [users] are read in rowid order and [telegram_id INTEGER
    PRIMARY KEY] is the rowid: a new row goes before the first row with a
    larger id. *)
Fixpoint place_user (r : Database.users_row) (l : list Database.users_row)
  : list Database.users_row :=
  match l with
  | [] => [r]
  | x :: l' =>
      if Database.telegram_id r <? Database.telegram_id x
      then r :: x :: l'
      else x :: place_user r l'
  end.

Definition with_users (l : list Database.users_row) (db : Database.t)
  : Database.t :=
  {| Database.users := l;
     Database.events := Database.events db;
     Database.sent_notifications := Database.sent_notifications db |}.

(** [INSERT INTO users (telegram_id, is_subscribed) VALUES (?, ?)], issued
    when the clock reads [now]. *)
Definition insert_user (i flag now : Z) (db : Database.t)
  : violation + Database.t :=
  if existsb (fun u => Database.telegram_id u =? i) (Database.users db)
  then inl users_telegram_id_not_unique
  else inr (with_users
              (place_user {| Database.telegram_id := i;
                             Database.is_subscribed := flag;
                             Database.registered_at := datetime_now now |}
                          (Database.users db)) db).

(** [INSERT OR REPLACE INTO users (telegram_id, is_subscribed, registered_at)
    VALUES (?, ?, ?)]: the row with this id, if any, is deleted first. *)
Definition replace_user (r : Database.users_row) (db : Database.t) : Database.t :=
  with_users
    (place_user r
       (filter (fun u => negb (Database.telegram_id u =? Database.telegram_id r))
               (Database.users db))) db.

(** [SELECT COUNT( * ) FROM users]. *)
Definition count_users (db : Database.t) : Z :=
  Z.of_nat (List.length (Database.users db)).

(** [CHECK(format IN ('online', 'offline', 'hybrid'))]. *)
Definition format_ok (f : string) : bool :=
  String.eqb f "online" || String.eqb f "offline" || String.eqb f "hybrid".

(** The row an [Event] object is written as: every attribute is bound as
    text. *)
Definition row_of (i : Z) (e : Event.t) : Database.events_row :=
  {| Database.row_id := i;
     Database.row_title := Event.title e;
     Database.row_description := Some (Event.description e);
     Database.row_event_datetime := Event.event_datetime e;
     Database.row_location := Some (Event.location e);
     Database.row_format := Some (Event.format e);
     Database.row_link := Some (Event.link e);
     Database.row_photo_file_id := Some (Event.photo_file_id e) |}.

Definition with_events (l : list Database.events_row) (db : Database.t)
  : Database.t :=
  {| Database.users := Database.users db;
     Database.events := l;
     Database.sent_notifications := Database.sent_notifications db |}.

(** [id INTEGER PRIMARY KEY AUTOINCREMENT]: the next id is one more than the
    largest id the table holds or has ever held; [seq] is the latter, which
    SQLite keeps in [sqlite_sequence]. *)
Definition next_id (seq : Z) (db : Database.t) : Z :=
  fold_right Z.max seq (map Database.row_id (Database.events db)) + 1.

(** [INSERT INTO events (title, description, event_datetime, location,
    format, link, photo_file_id) VALUES (?, ?, ?, ?, ?, ?, ?)]; the value is
    [cursor.lastrowid].  The object's [title] and [event_datetime] are texts,
    as [Event.__init__] declares them, so of the constraints of the table
    only the CHECK can fail here; an object carrying [None] there (NOT NULL)
    is outside this embedding. *)
Definition insert_event (seq : Z) (e : Event.t) (db : Database.t)
  : violation + (Z * Database.t) :=
  if format_ok (Event.format e)
  then let i := next_id seq db in
       inr (i, with_events (Database.events db ++ [row_of i e])%list db)
  else inl events_format_check.

(** [UPDATE events SET title = ?, ..., photo_file_id = ?, updated_at = ?
    WHERE id = ?]. *)
Definition update_event (i : Z) (e : Event.t) (db : Database.t)
  : violation + Database.t :=
  if existsb (fun r => Database.row_id r =? i) (Database.events db)
  then if format_ok (Event.format e)
       then inr (with_events
                   (map (fun r => if Database.row_id r =? i then row_of i e else r)
                        (Database.events db)) db)
       else inl events_format_check
  else inr db.

(** [DELETE FROM events WHERE id = ?]; the foreign key of
    [sent_notifications] is declared [ON DELETE CASCADE]. *)
Definition delete_event (i : Z) (db : Database.t) : Database.t :=
  {| Database.users := Database.users db;
     Database.events :=
       filter (fun r => negb (Database.row_id r =? i)) (Database.events db);
     Database.sent_notifications :=
       filter (fun k => negb (fst k =? i)) (Database.sent_notifications db) |}.

(** [SELECT id, title, ... FROM events WHERE id = ?] through [fetch_one]. *)
Definition select_event (i : Z) (db : Database.t) : option Database.events_row :=
  find (fun r => Database.row_id r =? i) (Database.events db).

(** [SELECT id, title, ... FROM events ORDER BY event_datetime ASC]. *)
Definition select_all_events (db : Database.t) : list Database.events_row :=
  Database.order_by_datetime (Database.events db).

End Sql.

(* ================================================================== *)
(** ** The rest of [models/user.py] and [models/event.py] *)

Module Users.

(** A [User] object. *)
Record t := {
  telegram_id : Z;
  is_subscribed : bool;
  registered_at : string }.

Section Methods.
Context {env : Environment}.

(** [User.__init__(telegram_id, is_subscribed, registered_at)] when the clock
    reads [now]: [registered_at or datetime.now().isoformat()]. *)
Definition init (i : Z) (subscribed : bool) (registered : option string)
    (now : Z) : t :=
  {| telegram_id := i;
     is_subscribed := subscribed;
     registered_at :=
       Py.or_else registered (Datetime.isoformat (now + system_utcoffset now)) |}.

(** [User.get_or_create(telegram_id)]: the object, or the exception of the
    INSERT, and the store. *)
Definition get_or_create (i now : Z) (db : Database.t)
  : (Sql.violation + t) * Database.t :=
  match Sql.select_user i db with
  | Some user_data =>
      (inr (init (Database.telegram_id user_data)
                 (negb (Database.is_subscribed user_data =? 0))
                 (Some (Database.registered_at user_data)) now), db)
  | None =>
      match Sql.insert_user i 1 now db with
      | inl e => (inl e, db)
      | inr db' => (inr (init i true None now), db')
      end
  end.

(** [User.save]. *)
Definition save (self : t) (db : Database.t) : Database.t :=
  Sql.replace_user
    {| Database.telegram_id := telegram_id self;
       Database.is_subscribed := if is_subscribed self then 1 else 0;
       Database.registered_at := registered_at self |} db.

Definition set_subscribed (b : bool) (self : t) : t :=
  {| telegram_id := telegram_id self;
     is_subscribed := b;
     registered_at := registered_at self |}.

(** [User.subscribe] and [User.unsubscribe]: the object as they leave it,
    and the store. *)
Definition subscribe (self : t) (db : Database.t) : t * Database.t :=
  (set_subscribed true self, save (set_subscribed true self) db).

Definition unsubscribe (self : t) (db : Database.t) : t * Database.t :=
  (set_subscribed false self, save (set_subscribed false self) db).

(** [User.get_all_users_count]. *)
Definition get_all_users_count (db : Database.t) : Z := Sql.count_users db.

(** What the handlers [cmd_subscribe] and [callback_subscribe]
    ([cmd_unsubscribe], [callback_unsubscribe]) of [handlers/start.py] do to
    the store before they answer:
    [user = await User.get_or_create(id); await user.subscribe()]. *)
Definition subscribe_command (i now : Z) (db : Database.t)
  : Sql.violation + Database.t :=
  match get_or_create i now db with
  | (inl e, _) => inl e
  | (inr user, db') => inr (snd (subscribe user db'))
  end.

Definition unsubscribe_command (i now : Z) (db : Database.t)
  : Sql.violation + Database.t :=
  match get_or_create i now db with
  | (inl e, _) => inl e
  | (inr user, db') => inr (snd (unsubscribe user db'))
  end.

End Methods.

End Users.

Module Events.

(** [self.id = cursor.lastrowid]. *)
Definition set_id (i : Z) (self : Event.t) : Event.t :=
  {| Event.id := Some i;
     Event.title := Event.title self;
     Event.description := Event.description self;
     Event.event_datetime := Event.event_datetime self;
     Event.location := Event.location self;
     Event.format := Event.format self;
     Event.link := Event.link self;
     Event.photo_file_id := Event.photo_file_id self |}.

(** [Event.save] on an open connection, for an object whose table counter
    reads [seq]: the object as the call leaves it (a new event has received
    [lastrowid]) and the store, or the exception. *)
Definition save (seq : Z) (self : Event.t) (db : Database.t)
  : Sql.violation + (Event.t * Database.t) :=
  match Event.id self with
  | None =>
      match Sql.insert_event seq self db with
      | inl e => inl e
      | inr (i, db') => inr (set_id i self, db')
      end
  | Some i =>
      match Sql.update_event i self db with
      | inl e => inl e
      | inr db' => inr (self, db')
      end
  end.

(** [Event.delete]. *)
Definition delete (self : Event.t) (db : Database.t) : Database.t :=
  match Event.id self with
  | Some i => Sql.delete_event i db
  | None => db
  end.

(** [Event.get_by_id]. *)
Definition get_by_id (event_id : Z) (db : Database.t) : option Event.t :=
  match Sql.select_event event_id db with
  | Some row => Some (Event.of_row row)
  | None => None
  end.

(** [Event.get_all]. *)
Definition get_all (db : Database.t) : list Event.t :=
  map Event.of_row (Sql.select_all_events db).

End Events.

(* ================================================================== *)
(** ** [keyboards/inline.py] and the callback data its buttons carry *)

Module Keyboards.

Record InlineKeyboardButton := { text : string; callback_data : string }.

(** [InlineKeyboardMarkup(inline_keyboard=rows)]. *)
Definition InlineKeyboardMarkup : Type := list (list InlineKeyboardButton).

(** An index of a slice, brought into [0..len]: negative indices count from
    the end. *)
Definition clamp (i len : Z) : Z :=
  if i <? 0 then Z.max (i + len) 0 else Z.min i len.

(** [l[start:stop]]. *)
Definition slice {A} (l : list A) (start stop : Z) : list A :=
  let len := Z.of_nat (List.length l) in
  let s := clamp start len in
  let e := clamp stop len in
  firstn (Z.to_nat (e - s)) (skipn (Z.to_nat s) l).

(** A byte that continues a UTF-8 character. *)
Definition continues (c : ascii) : bool :=
  let n := Z.of_N (N_of_ascii c) in (128 <=? n) && (n <? 192).

(** [s[:n]] for [n >= 0]: the first [n] characters of the text. *)
Fixpoint take_chars (n : nat) (s : string) : string :=
  match s with
  | EmptyString => EmptyString
  | String c rest =>
      if continues c then String c (take_chars n rest)
      else match n with
           | O => EmptyString
           | S n' => String c (take_chars n' rest)
           end
  end.

(** [str(event.id)]. *)
Definition str_id (i : option Z) : string :=
  match i with Some n => Py.str n | None => "None" end.

(** [get_subscribe_keyboard]. *)
Definition get_subscribe_keyboard (is_subscribed : bool) : InlineKeyboardMarkup :=
  let button :=
    if is_subscribed
    then {| text := "❌ Отписаться от уведомлений"; callback_data := "unsubscribe" |}
    else {| text := "✅ Подписаться на уведомления"; callback_data := "subscribe" |} in
  [[button]].

(** [get_event_keyboard]. *)
Definition get_event_keyboard (event_id : option Z) (show_delete : bool)
  : InlineKeyboardMarkup :=
  let buttons :=
    if show_delete
    then [[{| text := "🗑 Удалить";
              callback_data := "delete_event_" ++ str_id event_id |}]]
    else [] in
  (buttons ++ [[{| text := "✏️ Редактировать";
                   callback_data := "edit_event_" ++ str_id event_id |}]])%list.

Definition event_button (event : Event.t) : list InlineKeyboardButton :=
  [{| text := "📅 " ++ take_chars 30 (Event.title event) ++ "...";
      callback_data := "view_event_" ++ str_id (Event.id event) |}].

(** [get_events_list_keyboard(events, page, per_page)]. *)
Definition get_events_list_keyboard (events : list Event.t) (page per_page : Z)
  : InlineKeyboardMarkup :=
  let start_idx := page * per_page in
  let end_idx := start_idx + per_page in
  let buttons := map event_button (slice events start_idx end_idx) in
  let nav_buttons :=
    ((if 0 <? page
      then [{| text := "◀️ Назад";
               callback_data := "events_page_" ++ Py.str (page - 1) |}]
      else [])
     ++ (if end_idx <? Z.of_nat (List.length events)
         then [{| text := "Вперед ▶️";
                  callback_data := "events_page_" ++ Py.str (page + 1) |}]
         else []))%list in
  match nav_buttons with
  | [] => buttons
  | _ => (buttons ++ [nav_buttons])%list
  end.

(** [get_confirm_keyboard]. *)
Definition get_confirm_keyboard (action : string) (item_id : Z)
  : InlineKeyboardMarkup :=
  [[{| text := "✅ Да";
       callback_data := "confirm_" ++ action ++ "_" ++ Py.str item_id |};
    {| text := "❌ Нет";
       callback_data := "cancel_" ++ action ++ "_" ++ Py.str item_id |}]].

(** [data.split("_")[-1]]: the text after the last underscore, the whole text
    when there is none. *)
Fixpoint after_last_underscore (s : string) : option string :=
  match s with
  | EmptyString => None
  | String c rest =>
      match after_last_underscore rest with
      | Some t => Some t
      | None => if Ascii.eqb c "_" then Some rest else None
      end
  end.

Definition last_field (s : string) : string :=
  match after_last_underscore s with Some t => t | None => s end.

(** [int(s)] on the texts [str] prints, an optional minus sign and decimal
    digits.  On every other text the value is [None]: Python raises
    [ValueError] there, except for the few forms it also reads (blanks
    around the number, a plus sign, underscores between digits, digits of
    other scripts), which no button carries. *)
Fixpoint digits_value (acc : Z) (s : string) : option Z :=
  match s with
  | EmptyString => Some acc
  | String c rest =>
      match Datetime.digit c with
      | Some d => digits_value (10 * acc + d) rest
      | None => None
      end
  end.

Definition int_of (s : string) : option Z :=
  match s with
  | EmptyString => None
  | String c rest =>
      if Ascii.eqb c "-"
      then match rest with
           | EmptyString => None
           | _ => option_map Z.opp (digits_value 0 rest)
           end
      else digits_value 0 s
  end.

(** [int(callback.data.split("_")[-1])], as the handlers of
    [handlers/notifications.py] and [handlers/admin.py] read a button back. *)
Definition callback_number (data : string) : option Z :=
  int_of (last_field data).

(** [events[start_idx:end_idx]], the events whose buttons page [page]
    shows. *)
Definition page_events (events : list Event.t) (page per_page : Z) : list Event.t :=
  slice events (page * per_page) (page * per_page + per_page).

(** Whether a keyboard offers the button to page [page + 1]. *)
Definition has_forward (m : InlineKeyboardMarkup) (page : Z) : bool :=
  existsb (existsb (fun b => String.eqb (callback_data b)
                                 ("events_page_" ++ Py.str (page + 1)))) m.

End Keyboards.

(* ================================================================== *)
(** ** [handlers/admin.py]: the confirmation of a deletion *)

Module Admin.

(** What [confirm_delete_event] does to the store for the callback data
    [data], up to [await event.delete()]: [None] when [int] raises. *)
Definition confirm_delete_event (data : string) (db : Database.t)
  : option Database.t :=
  match Keyboards.callback_number data with
  | None => None
  | Some event_id =>
      match Events.get_by_id event_id db with
      | Some event => Some (Events.delete event db)
      | None => Some db
      end
  end.

End Admin.

(* ================================================================== *)
(** ** Invariants of the store *)

Module Inv.

(** Every ledger row refers to a stored event (the foreign key). *)
Definition references_ok (db : Database.t) : Prop :=
  forall k, In k (Database.sent_notifications db) ->
            Database.has_event (fst k) db = true.

(** The subscription flags are 0 or 1, as [User.save] and the INSERT of
    [get_or_create] write them. *)
Definition flags_ok (db : Database.t) : Prop :=
  forall u, In u (Database.users db) ->
            Database.is_subscribed u = 0 \/ Database.is_subscribed u = 1.

(** The [format] column holds NULL or one of the three formats (the CHECK). *)
Definition formats_ok (db : Database.t) : Prop :=
  forall r, In r (Database.events db) ->
            match Database.row_format r with
            | Some f => Sql.format_ok f = true
            | None => True
            end.

(** No event has an id above the table counter. *)
Definition counter_ok (seq : Z) (db : Database.t) : Prop :=
  forall r, In r (Database.events db) -> Database.row_id r <= seq.

(** What a run of the engine may do to the store: [users] and [events] are
    as before, the ledger has only gained rows, each for a stored event and
    none twice. *)
Record grows (db db' : Database.t) : Prop := {
  same_users : Database.users db' = Database.users db;
  same_events : Database.events db' = Database.events db;
  appended :
    exists added,
      Database.sent_notifications db'
      = (Database.sent_notifications db ++ added)%list
      /\ (forall k, In k added -> Database.has_event (fst k) db = true)
      /\ (NoDup (Database.sent_notifications db) ->
          NoDup (Database.sent_notifications db')) }.

(** A Bot API call of a reminder run, and the pair it was made for. *)
Definition is_reminder_of {env : Environment} (c : BotCall) (event : Event.t)
    (h : Z) : Prop :=
  c = NotificationService.delivery event (chat_id_of c)
        (NotificationService.reminder_text event h).

(** The pair [(event, h)] is due at [now]: the event is upcoming in [db],
    [h] is a configured lead time and [now] is within a minute of the
    target. *)
Definition due_pair {env : Environment} (now : Z) (db : Database.t)
    (event : Event.t) (h : Z) : Prop :=
  In event (Event.get_upcoming now db)
  /\ In h NOTIFICATION_HOURS
  /\ exists parsed,
       fromisoformat (Event.event_datetime event) = Some parsed
       /\ Z.abs (now - Spec.target parsed h) <= 60 * Datetime.usec_per_sec.



End Inv.

(* ================================================================== *)
(** ** Properties *)

Section Facts.
Context {env : Environment}.
Import NotificationService.

(** *** The effect monad *)

Lemma bind_ok {A B} (m : M.t A) (k : A -> M.t B) db a :
  M.result (m db) = inr a ->
  M.bind m k db =
    {| M.result := M.result (k a (M.store (m db)));
       M.store := M.store (k a (M.store (m db)));
       M.effects := (M.effects (m db) ++ M.effects (k a (M.store (m db))))%list |}.
Proof. intros H. unfold M.bind. rewrite H. reflexivity. Qed.

Lemma bind_raised {A B} (m : M.t A) (k : A -> M.t B) db e :
  M.result (m db) = inl e ->
  M.bind m k db =
    {| M.result := inl e; M.store := M.store (m db); M.effects := M.effects (m db) |}.
Proof. intros H. unfold M.bind. rewrite H. reflexivity. Qed.





Lemma try_except_effects_inv {A} (body : M.t A) handler db x :
  In x (M.effects (M.try_except body handler db)) ->
  In x (M.effects (body db)) \/
  exists e, M.result (body db) = inl e
            /\ In x (M.effects (handler e (M.store (body db)))).
Proof.
  unfold M.try_except. destruct (M.result (body db)) as [e | a] eqn:E; simpl; auto.
  intros H. apply in_app_or in H as [H | H]; eauto.
Qed.

(** A guarded step whose handler only prints always returns. *)
Lemma try_print_returns (body : M.t unit) (line : Py.exn -> Line) db :
  M.result (M.try_except body (fun e => M.print (line e)) db) = inr tt.
Proof.
  unfold M.try_except. destruct (M.result (body db)) as [e | []] eqn:E; auto.
Qed.

(** A loop whose body always returns runs every iteration. *)
Lemma for_each_returns {A} (l : list A) (body : A -> M.t unit) :
  (forall a db, M.result (body a db) = inr tt) ->
  forall db, M.result (M.for_each l body db) = inr tt.
Proof.
  intros Hb. unfold M.for_each.
  induction l as [| a l IH]; intros db; simpl; auto.
  rewrite (bind_ok _ _ _ tt) by apply Hb. simpl. apply IH.
Qed.



(** *** The fan-out loops *)

Lemma chat_id_of_delivery event u text : chat_id_of (delivery event u text) = u.
Proof. unfold delivery. destruct (Py.truthy _); reflexivity. Qed.

Lemma try_deliver_run event text bot n u db :
  try_deliver event text bot n u db =
    {| M.result := inr (if answers bot (delivery event u text) then n + 1 else n);
       M.store := meanwhile bot db;
       M.effects := Spec.reminder_step (answers bot) (delivery event u text) |}.
Proof.
  unfold try_deliver, M.try_except, M.bind, M.await_bot, Spec.reminder_step.
  simpl. rewrite chat_id_of_delivery.
  destruct (answers bot (delivery event u text)); reflexivity.
Qed.

Lemma fan_out_from event text bot users : forall acc db,
  M.for_fold users acc (try_deliver event text bot) db =
    {| M.result :=
         inr (acc + Z.of_nat (List.length
                (filter (fun u => answers bot (delivery event u text)) users)));
       M.store := Spec.after_calls bot (List.length users) db;
       M.effects :=
         flat_map (fun u => Spec.reminder_step (answers bot) (delivery event u text))
                  users |}.
Proof.
  induction users as [| u users IH]; intros acc db; simpl.
  - unfold M.ret. f_equal. f_equal. lia.
  - unfold M.bind. rewrite try_deliver_run. simpl. rewrite IH. simpl.
    destruct (answers bot (delivery event u text)); simpl; f_equal; f_equal; lia.
Qed.

Lemma after_calls_alone f n db : Spec.after_calls (alone f) n db = db.
Proof. revert db. induction n; intros db; simpl; auto. Qed.

Lemma some_accepted (ok : Z -> bool) users :
  (0 <? Z.of_nat (List.length (filter ok users))) = existsb ok users.
Proof.
  induction users as [| u users IH]; simpl; auto.
  destruct (ok u); simpl; auto.
Qed.

(** [send_upcoming_event_notification], step by step. *)
Lemma send_upcoming_run event h bot db :
  send_upcoming_event_notification event h bot db =
    match Database.select_sent (Event.id event) h db with
    | Some _ => Spec.no_op db
    | None =>
        let users := User.get_subscribed_users db in
        let db1 := Spec.after_calls bot (List.length users) db in
        let run := Spec.reminder_run (answers bot) event h users in
        if existsb (Spec.accepts (answers bot) event h) users
        then match Database.insert_sent (Event.id event) h db1 with
             | inl x => {| M.result := inl x; M.store := db1; M.effects := run |}
             | inr db2 => {| M.result := inr tt; M.store := db2; M.effects := run |}
             end
        else {| M.result := inr tt; M.store := db1; M.effects := run |}
    end.
Proof.
  unfold send_upcoming_event_notification, M.bind at 1, M.query at 1. simpl.
  destruct (Database.select_sent (Event.id event) h db); [reflexivity |].
  unfold M.bind at 1, M.query at 1. simpl.
  unfold fan_out, M.bind. rewrite fan_out_from. simpl.
  rewrite some_accepted.
  change (fun u => answers bot (delivery event u (reminder_text event h)))
    with (Spec.accepts (answers bot) event h).
  destruct (existsb _ _); simpl.
  - unfold M.execute.
    destruct (Database.insert_sent _ _ _); simpl; rewrite app_nil_r; reflexivity.
  - rewrite app_nil_r. reflexivity.
Qed.

(** *** What a reminder fan-out leaves behind *)

Lemma successes_reminder_run f event h users :
  Spec.successes (Spec.reminder_run f event h users)
  = List.length (filter (Spec.accepts f event h) users).
Proof.
  unfold Spec.successes, Spec.reminder_run, Spec.accepts, Spec.reminder_step.
  induction users as [| u users IH]; simpl; auto.
  rewrite filter_app, length_app, IH.
  destruct (f _); reflexivity.
Qed.

Lemma failures_reminder_run f event h users :
  Spec.failures (Spec.reminder_run f event h users)
  = List.length (filter (fun u => negb (Spec.accepts f event h u)) users).
Proof.
  unfold Spec.failures, Spec.reminder_run, Spec.accepts, Spec.reminder_step.
  induction users as [| u users IH]; simpl; auto.
  rewrite filter_app, length_app, IH.
  destruct (f _); reflexivity.
Qed.

Lemma attempts_reminder_run f event h users u :
  Spec.attempts_to u (Spec.reminder_run f event h users)
  = List.length (filter (fun v => v =? u) users).
Proof.
  unfold Spec.attempts_to, Spec.reminder_run, Spec.reminder_step.
  induction users as [| v users IH]; simpl; auto.
  rewrite filter_app, length_app, IH.
  destruct (f _); simpl; rewrite chat_id_of_delivery;
    destruct (v =? u); reflexivity.
Qed.

Lemma called_in_reminder_run f event h users c b :
  In (Called c b) (Spec.reminder_run f event h users) <->
  exists u, In u users
            /\ c = delivery event u (reminder_text event h)
            /\ Spec.accepts f event h u = b.
Proof.
  unfold Spec.reminder_run, Spec.accepts, Spec.reminder_step.
  rewrite in_flat_map. split.
  - intros (u & Hu & Hin). exists u. split; auto.
    destruct (f _) eqn:E; simpl in Hin.
    + destruct Hin as [Hin | []]. inversion Hin; subst. auto.
    + destruct Hin as [Hin | [Hin | []]]; inversion Hin; subst. auto.
  - intros (u & Hu & -> & Hb). exists u. split; auto.
    rewrite Hb. destruct b; simpl; auto.
Qed.

Lemma no_invoked_in_reminder_run f event h users e' h' :
  ~ In (Invoked e' h') (Spec.reminder_run f event h users).
Proof.
  unfold Spec.reminder_run, Spec.reminder_step. rewrite in_flat_map.
  intros (u & _ & Hin). destruct (f _); simpl in Hin; intuition discriminate.
Qed.

Lemma filter_length_split {A} (p : A -> bool) (l : list A) :
  (List.length (filter p l) + List.length (filter (fun a => negb (p a)) l)
   = List.length l)%nat.
Proof. induction l as [| a l IH]; simpl; auto. destruct (p a); simpl; lia. Qed.

Lemma filter_absent (users : list Z) (u : Z) :
  ~ In u users -> filter (fun v => v =? u) users = [].
Proof.
  induction users as [| w users IH]; simpl; intros H; auto.
  destruct (Z.eqb_spec w u) as [-> | _].
  - exfalso. apply H. auto.
  - apply IH. intros Hin. apply H. auto.
Qed.

Lemma once_each (users : list Z) (u : Z) :
  NoDup users ->
  (List.length (filter (fun v => (v =? u)%Z) users) <= 1)%nat.
Proof.
  induction 1 as [| v users Hv _ IH]; simpl; auto.
  destruct (Z.eqb_spec v u) as [-> | _]; simpl; auto.
  rewrite filter_absent by assumption. simpl. lia.
Qed.

(** *** The store and its constraints *)

Lemma key_eqb_eq k1 k2 : Database.key_eqb k1 k2 = true <-> k1 = k2.
Proof.
  destruct k1 as [a b], k2 as [c d]. unfold Database.key_eqb. simpl.
  rewrite andb_true_iff, !Z.eqb_eq. split; [intros [-> ->] | intros [= -> ->]]; auto.
Qed.

Lemma seen_iff i h l :
  existsb (Database.key_eqb (i, h)) l = true <-> In (i, h) l.
Proof.
  rewrite existsb_exists. split.
  - intros (k & Hk & E). apply key_eqb_eq in E. subst. exact Hk.
  - intros H. exists (i, h). split; auto. apply key_eqb_eq. reflexivity.
Qed.

Lemma select_sent_found i h db :
  In (i, h) (Database.sent_notifications db) ->
  exists r, Database.select_sent (Some i) h db = Some r.
Proof.
  intros H. simpl.
  destruct (find _ _) as [r |] eqn:E; eauto.
  exfalso. apply (find_none _ _ E) in H.
  assert (Database.key_eqb (i, h) (i, h) = true) by (apply key_eqb_eq; reflexivity).
  congruence.
Qed.

Lemma select_sent_none i h db :
  Database.select_sent (Some i) h db = None ->
  existsb (Database.key_eqb (i, h)) (Database.sent_notifications db) = false.
Proof.
  simpl. intros E.
  destruct (existsb _ _) eqn:X; auto.
  apply existsb_exists in X as (k & Hk & Ek).
  apply (find_none _ _ E) in Hk. congruence.
Qed.

Lemma select_subscribed_NoDup db :
  NoDup (map Database.telegram_id (Database.users db)) ->
  NoDup (User.get_subscribed_users db).
Proof.
  unfold User.get_subscribed_users, Database.select_subscribed.
  induction (Database.users db) as [| r l IH]; simpl; intros H; [constructor |].
  inversion H as [| ? ? Hr Hl]; subst.
  destruct (Database.is_subscribed r =? 1); simpl; auto.
  constructor; auto.
  intros Hin. apply Hr.
  apply in_map_iff in Hin as (r' & E & Hr').
  apply filter_In in Hr' as [Hr' _].
  apply in_map_iff. eauto.
Qed.

Lemma entries_once i h db :
  NoDup (Database.sent_notifications db) ->
  In (i, h) (Database.sent_notifications db) ->
  Spec.entries i h db = 1%nat.
Proof.
  unfold Spec.entries.
  induction (Database.sent_notifications db) as [| k l IH]; simpl;
    intros Hn Hin; [contradiction |].
  inversion Hn as [| ? ? Hk Hl]; subst.
  destruct (Database.key_eqb (i, h) k) eqn:E.
  - apply key_eqb_eq in E. subst k. simpl. f_equal.
    destruct (filter _ l) as [| k' l'] eqn:F; auto.
    exfalso. assert (Hk' : In k' (filter (Database.key_eqb (i, h)) l))
      by (rewrite F; simpl; auto).
    apply filter_In in Hk' as [Hk' E']. apply key_eqb_eq in E'. subst. auto.
  - destruct Hin as [-> | Hin]; auto.
    exfalso. assert (Database.key_eqb (i, h) (i, h) = true)
      by (apply key_eqb_eq; reflexivity). congruence.
Qed.

(** *** The single-reminder send *)

(** The de-duplication check: with the entry in the ledger the call returns
    at once, whatever the channel and the other tasks would have done. *)
Lemma send_upcoming_skips_sent event h i bot db :
  Event.id event = Some i ->
  In (i, h) (Database.sent_notifications db) ->
  send_upcoming_event_notification event h bot db = Spec.no_op db.
Proof.
  intros Hid Hin. rewrite send_upcoming_run, Hid.
  destruct (select_sent_found _ _ _ Hin) as (r & ->). reflexivity.
Qed.

(** On a channel nobody interferes with, for a stored event. *)
Lemma send_upcoming_alone event h i f db :
  Event.id event = Some i ->
  Database.has_event i db = true ->
  Database.select_sent (Some i) h db = None ->
  let users := User.get_subscribed_users db in
  send_upcoming_event_notification event h (alone f) db =
    {| M.result := inr tt;
       M.store :=
         if existsb (Spec.accepts f event h) users
         then Spec.with_ledger
                (Database.sent_notifications db ++ [(i, h)])%list db
         else db;
       M.effects := Spec.reminder_run f event h users |}.
Proof.
  intros Hid Hev Hnone users. rewrite send_upcoming_run, Hid, Hnone.
  cbv zeta. rewrite after_calls_alone. fold users.
  simpl answers. destruct (existsb _ users); auto.
  unfold Database.insert_sent.
  rewrite (select_sent_none _ _ _ Hnone), Hev. reflexivity.
Qed.

Lemma ledger_grows (l : list Database.sent_row) k : (l ++ [k])%list <> l.
Proof.
  intros E. apply (f_equal (@List.length _)) in E.
  rewrite length_app in E. simpl in E. lia.
Qed.

Lemma accepted_iff_called f event h users :
  existsb (Spec.accepts f event h) users = true <->
  exists c, In (Called c true) (Spec.reminder_run f event h users).
Proof.
  rewrite existsb_exists. split.
  - intros (u & Hu & Hok). eexists. apply called_in_reminder_run. eauto.
  - intros (c & Hc). apply called_in_reminder_run in Hc as (u & Hu & _ & Hok). eauto.
Qed.

(** C1 (idempotence).  For an event with id [i]: once the ledger holds the
    entry [(i, h)], [send_upcoming_event_notification] returns at once and
    leaves the store, the channel and the console untouched.  Hence, of two
    calls in succession from a well-formed store, when the first leaves the
    ledger populated the second is a no-op, the ledger holds exactly one
    entry for [(i, h)], and no recipient was addressed more than once over
    both calls. *)
Theorem reminder_sent_once event h i (f : BotCall -> bool) (bot : Bot) db :
  Event.id event = Some i ->
  Database.wf db ->
  let first := send_upcoming_event_notification event h (alone f) db in
  let second := send_upcoming_event_notification event h bot (M.store first) in
  In (i, h) (Database.sent_notifications (M.store first)) ->
  (forall bot' db', In (i, h) (Database.sent_notifications db') ->
     send_upcoming_event_notification event h bot' db' = Spec.no_op db')
  /\ second = Spec.no_op (M.store first)
  /\ Spec.entries i h (M.store second) = 1%nat
  /\ forall u,
       (Spec.attempts_to u (M.effects first ++ M.effects second) <= 1)%nat.
Proof.
  intros Hid Hwf first second Hin.
  assert (Hskip : forall bot' db', In (i, h) (Database.sent_notifications db') ->
            send_upcoming_event_notification event h bot' db' = Spec.no_op db')
    by (intros; eapply send_upcoming_skips_sent; eauto).
  assert (H2 : second = Spec.no_op (M.store first)) by (apply Hskip, Hin).
  split; [exact Hskip |]. split; [exact H2 |].
  rewrite H2.
  change (M.store (Spec.no_op (M.store first))) with (M.store first).
  change (M.effects (Spec.no_op (M.store first))) with (@nil Effect).
  rewrite app_nil_r.
  destruct Hwf as [Hu _ Hs].
  clear H2 second. revert Hin. unfold first. clear first.
  rewrite send_upcoming_run, Hid. cbv zeta. rewrite after_calls_alone.
  cbn [Database.select_sent answers alone]. unfold Database.insert_sent.
  assert (Hatt : forall u,
            (Spec.attempts_to u
               (Spec.reminder_run f event h (User.get_subscribed_users db)) <= 1)%nat).
  { intros u. rewrite attempts_reminder_run.
    apply once_each, select_subscribed_NoDup, Hu. }
  destruct (find _ _) as [r |] eqn:Efind.
  - cbn [M.store M.effects Spec.no_op]. intros Hin.
    split; [apply entries_once; auto |]. intros u. cbn. lia.
  - assert (Hnew : existsb (Database.key_eqb (i, h))
                     (Database.sent_notifications db) = false)
      by (apply select_sent_none; exact Efind).
    rewrite Hnew.
    destruct (existsb _ (User.get_subscribed_users db));
      [destruct (negb _) |]; cbn [M.store M.effects Database.sent_notifications];
      intros Hin; (split; [| exact Hatt]); apply entries_once; auto.
    cbn [Database.sent_notifications].
    apply NoDup_app; auto.
    + constructor; [simpl; tauto | constructor].
    + intros k Hk [<- | []].
      apply seen_iff in Hk. congruence.
Qed.

(** C2 (commit policy).  For a stored event on a channel nobody interferes
    with, the call returns; it appends the entry [(i, h)] to the ledger
    exactly when some delivery of the fan-out succeeded; when none did the
    store is as before; and with no subscribed recipient the call does
    nothing at all.  In terms of what the channel does: when the ledger does
    not hold the pair, every subscribed recipient is sent the reminder, with
    the answer the channel gives; if the channel accepts it for at least one
    of them the store afterwards is the store before with [(i, h)] appended
    to the ledger, and nothing else changed; if it accepts it for none the
    store is as before. *)
Theorem ledger_written_iff_delivered event h i (f : BotCall -> bool) db :
  Event.id event = Some i ->
  Database.has_event i db = true ->
  let o := send_upcoming_event_notification event h (alone f) db in
  M.result o = inr tt
  /\ ((exists c, In (Called c true) (M.effects o)) <->
      Database.sent_notifications (M.store o)
      = (Database.sent_notifications db ++ [(i, h)])%list)
  /\ ((forall c, ~ In (Called c true) (M.effects o)) -> M.store o = db)
  /\ (User.get_subscribed_users db = [] -> o = Spec.no_op db)
  /\ (Database.select_sent (Some i) h db = None ->
      (forall u, In u (User.get_subscribed_users db) ->
         In (Called (delivery event u (reminder_text event h))
                    (Spec.accepts f event h u))
            (M.effects o))
      /\ (existsb (Spec.accepts f event h) (User.get_subscribed_users db) = true ->
          M.store o
          = Spec.with_ledger
              (Database.sent_notifications db ++ [(i, h)])%list db
          /\ In (i, h) (Database.sent_notifications (M.store o)))
      /\ (existsb (Spec.accepts f event h) (User.get_subscribed_users db) = false ->
          M.store o = db
          /\ ~ In (i, h) (Database.sent_notifications (M.store o)))).
Proof.
  intros Hid Hev o. subst o.
  destruct (Database.select_sent (Some i) h db) as [r |] eqn:Esel.
  - rewrite send_upcoming_run, Hid, Esel.
    cbn [M.result M.store M.effects Spec.no_op].
    split; [reflexivity |]. split; [split |]; [| | split; [| split]]; auto.
    + intros (c & []).
    + intros E. symmetry in E. apply ledger_grows in E. contradiction.
    + discriminate.
  - rewrite (send_upcoming_alone _ _ _ _ _ Hid Hev Esel).
    cbn [M.result M.store M.effects].
    pose proof (accepted_iff_called f event h (User.get_subscribed_users db)) as Hacc.
    assert (Hcalls : forall u, In u (User.get_subscribed_users db) ->
              In (Called (delivery event u (reminder_text event h))
                         (Spec.accepts f event h u))
                 (Spec.reminder_run f event h (User.get_subscribed_users db)))
      by (intros u Hu; apply called_in_reminder_run; eauto).
    assert (Hfresh : ~ In (i, h) (Database.sent_notifications db)).
    { intros Hin. apply select_sent_found in Hin as (k & Hk). congruence. }
    destruct (existsb _ (User.get_subscribed_users db)) eqn:Eex.
    + destruct (proj1 Hacc eq_refl) as (c & Hc).
      split; [reflexivity |]. split; [split |]; [| | split; [| split]].
      * reflexivity.
      * eauto.
      * intros Hno. exfalso. exact (Hno c Hc).
      * intros Hempty. rewrite Hempty in Eex. discriminate.
      * intros _. split; [exact Hcalls |]. split; [| discriminate].
        intros _. split; [reflexivity |].
        cbn [Spec.with_ledger Database.sent_notifications].
        apply in_or_app. right. left. reflexivity.
    + split; [reflexivity |]. split; [split |]; [| | split; [| split]].
      * intros Hc. apply Hacc in Hc. discriminate.
      * intros E. symmetry in E. apply ledger_grows in E. contradiction.
      * reflexivity.
      * intros Hempty. rewrite Hempty. reflexivity.
      * intros _. split; [exact Hcalls |]. split; [discriminate |].
        intros _. split; [reflexivity | exact Hfresh].
Qed.

(** C5 (isolation), as the code has it.  For a stored event on a channel
    nobody interferes with: when exactly one delivery call of the fan-out
    fails and there are at least two subscribed recipients, the call
    returns, every other recipient is sent the reminder (the [N - 1]
    remaining calls all succeed) and the entry [(i, h)] is appended to the
    ledger. *)
Theorem one_failure_is_isolated event h i (f : BotCall -> bool) db :
  Event.id event = Some i ->
  Database.has_event i db = true ->
  let users := User.get_subscribed_users db in
  let o := send_upcoming_event_notification event h (alone f) db in
  Spec.failures (M.effects o) = 1%nat ->
  (2 <= List.length users)%nat ->
  M.result o = inr tt
  /\ Spec.successes (M.effects o) = (List.length users - 1)%nat
  /\ (forall u, In u users ->
        let c := delivery event u (reminder_text event h) in
        ~ In (Called c false) (M.effects o) -> In (Called c true) (M.effects o))
  /\ Database.sent_notifications (M.store o)
     = (Database.sent_notifications db ++ [(i, h)])%list.
Proof.
  intros Hid Hev users o. subst o.
  destruct (Database.select_sent (Some i) h db) as [r |] eqn:Esel.
  - rewrite send_upcoming_run, Hid, Esel. cbn. discriminate.
  - rewrite (send_upcoming_alone _ _ _ _ _ Hid Hev Esel). fold users.
    cbn [M.result M.store M.effects].
    rewrite failures_reminder_run, successes_reminder_run.
    intros Hone Htwo.
    pose proof (filter_length_split (Spec.accepts f event h) users) as Hsplit.
    assert (Hex : existsb (Spec.accepts f event h) users = true).
    { rewrite <- some_accepted. apply Z.ltb_lt. lia. }
    rewrite Hex. split; [reflexivity |]. split; [lia |]. split; [| reflexivity].
    intros u Hu Hnot. apply called_in_reminder_run.
    exists u. split; [exact Hu |]. split; [reflexivity |].
    destruct (Spec.accepts f event h u) eqn:E; auto.
    exfalso. apply Hnot. apply called_in_reminder_run. eauto.
Qed.

(** *** The broadcast of a new event *)

Lemma broadcast_loop event bot users : forall db,
  M.for_each users (fun user_id =>
    M.try_except
      (M.await_bot bot (delivery event user_id (new_event_text event)))
      (fun e => M.print (new_event_send_failed user_id e))) db
  = {| M.result := inr tt;
       M.store := Spec.after_calls bot (List.length users) db;
       M.effects := Spec.new_event_run (answers bot) event users |}.
Proof.
  unfold M.for_each, Spec.new_event_run.
  induction users as [| u users IH]; intros db; [reflexivity |].
  simpl. unfold M.bind, M.try_except, M.await_bot, Spec.new_event_step. simpl.
  rewrite chat_id_of_delivery.
  destruct (answers bot (delivery event u (new_event_text event)));
    simpl; rewrite IH; reflexivity.
Qed.

Lemma send_new_event_run event bot db :
  send_new_event_notification event (Some bot) db =
    {| M.result := inr tt;
       M.store := Spec.after_calls bot
                    (List.length (User.get_subscribed_users db)) db;
       M.effects := Spec.new_event_run (answers bot) event
                      (User.get_subscribed_users db) |}.
Proof.
  unfold send_new_event_notification, M.bind, M.query. simpl.
  rewrite broadcast_loop. reflexivity.
Qed.

(** C10.  Without a bot instance the broadcast of a new event returns at
    once: the recipients are not read, nothing is sent, nothing is
    printed, the store is as before. *)
Theorem send_new_event_without_bot event db :
  send_new_event_notification event None db = Spec.no_op db.
Proof. reflexivity. Qed.

(** *** The scan *)

Lemma send_upcoming_no_invoked event h bot db e' h' :
  ~ In (Invoked e' h')
       (M.effects (send_upcoming_event_notification event h bot db)).
Proof.
  rewrite send_upcoming_run.
  destruct (Database.select_sent _ _ _); [simpl; auto |]. cbv zeta.
  destruct (existsb _ _); [destruct (Database.insert_sent _ _ _) |];
    cbn [M.effects]; apply no_invoked_in_reminder_run.
Qed.

Lemma instant_now t : Datetime.instant (Datetime.now_in TIMEZONE t) = t.
Proof. unfold Datetime.instant, Datetime.now_in. simpl. lia. Qed.

Lemma drift_eq now ed h :
  time_diff (Datetime.now_in TIMEZONE now) (Datetime.minus_hours ed h)
  = Z.abs (now - (Datetime.instant ed - h * Datetime.usec_per_hour)).
Proof.
  unfold time_diff, Datetime.sub. rewrite instant_now.
  unfold Datetime.instant, Datetime.minus_hours. simpl. f_equal. lia.
Qed.

Lemma due_iff now parsed h :
  within_a_minute
    (time_diff (Datetime.now_in TIMEZONE now)
               (Datetime.minus_hours (in_timezone parsed) h)) = true
  <-> Z.abs (now - Spec.target parsed h) <= 60 * Datetime.usec_per_sec.
Proof.
  rewrite drift_eq. unfold within_a_minute, Spec.target. apply Z.leb_le.
Qed.







(** The scan contains every failure of its events. *)
Lemma scan_returns bot now db :
  M.result (check_and_send_reminders bot now db) = inr tt.
Proof.
  unfold check_and_send_reminders.
  rewrite (bind_ok _ _ _ (Event.get_upcoming now db)) by reflexivity.
  cbn [M.result]. apply for_each_returns. intros; apply try_print_returns.
Qed.

(** An event whose time cannot be read is skipped: no send is reached. *)
Lemma unreadable_event_skipped bot now event db :
  fromisoformat (Event.event_datetime event) = None ->
  M.try_except
    (check_event bot (Datetime.now_in TIMEZONE now) event)
    (fun e => M.print (event_check_failed (Event.id event) e)) db
  = {| M.result := inr tt; M.store := db;
       M.effects := [Printed (event_check_failed (Event.id event) Py.ValueError)] |}.
Proof. intros H. unfold M.try_except, check_event. rewrite H. reflexivity. Qed.

(** C6 (the two notification classes).  A broadcast of a new event writes
    nothing: on any channel the store after it is what the other tasks made
    of it meanwhile, and on a channel nobody interferes with, or without a
    bot, the store, and so every row of [sent_notifications], is as it was.
    What the broadcast sends does not depend on the ledger; and a scan that
    follows it is the scan that would have run without it: same result, same
    final store, the same sends after those of the broadcast. *)
Theorem broadcast_leaves_ledger event (b : option (BotCall -> bool)) db :
  let bot := option_map alone b in
  let o := send_new_event_notification event bot db in
  (forall any_bot,
     M.store (send_new_event_notification event (Some any_bot) db)
     = Spec.after_calls any_bot (List.length (User.get_subscribed_users db)) db)
  /\ M.store o = db
  /\ Database.sent_notifications (M.store o) = Database.sent_notifications db
  /\ (forall ledger,
        let o' := send_new_event_notification event bot
                    (Spec.with_ledger ledger db) in
        M.result o' = M.result o
        /\ M.effects o' = M.effects o
        /\ M.store o' = Spec.with_ledger ledger db)
  /\ (forall scan_bot now,
        let scan := check_and_send_reminders scan_bot now in
        M.bind (send_new_event_notification event bot) (fun _ => scan) db
        = {| M.result := M.result (scan db);
             M.store := M.store (scan db);
             M.effects := (M.effects o ++ M.effects (scan db))%list |}).
Proof.
  intros bot o.
  assert (Hrun : forall db',
            Database.users db' = Database.users db ->
            send_new_event_notification event bot db'
            = {| M.result := inr tt; M.store := db';
                 M.effects := M.effects o |}).
  { intros db' Husers. subst o bot. destruct b as [f |]; simpl option_map.
    - rewrite !send_new_event_run, !after_calls_alone. cbn [M.effects].
      unfold User.get_subscribed_users, Database.select_subscribed.
      rewrite Husers. reflexivity.
    - reflexivity. }
  assert (Ho : o = {| M.result := inr tt; M.store := db; M.effects := M.effects o |})
    by (apply Hrun; reflexivity).
  split; [intros any_bot; rewrite send_new_event_run; reflexivity |].
  split; [rewrite Ho; reflexivity |].
  split; [rewrite Ho; reflexivity |].
  split.
  - intros ledger o'. subst o'. rewrite (Hrun (Spec.with_ledger ledger db) eq_refl).
    rewrite Ho. auto.
  - intros scan_bot now scan.
    unfold M.bind. fold o. rewrite Ho. reflexivity.
Qed.

(** C4, as the code has it.  When [send_upcoming_event_notification]
    raises, it is the INSERT that failed after the fan-out: the exception
    is an [IntegrityError] that leaves the call, the store is as the other
    tasks left it, and for a uniqueness violation the ledger holds the
    entry.  The scan contains it: [check_and_send_reminders] returns
    normally, its handler prints the failure of the event. *)
Theorem uniqueness_error_leaves_send event h bot db x now :
  let o := send_upcoming_event_notification event h bot db in
  M.result o = inl x ->
  (exists c, x = Py.IntegrityError c
     /\ (c = Py.UNIQUE ->
         exists i, Event.id event = Some i
                   /\ In (i, h) (Database.sent_notifications (M.store o))))
  /\ M.store o
     = Spec.after_calls bot (List.length (User.get_subscribed_users db)) db
  /\ M.result (check_and_send_reminders bot now db) = inr tt
  /\ (forall current_time db' y,
        let body := check_event bot current_time event in
        M.result (body db') = inl y ->
        M.try_except body
          (fun e => M.print (event_check_failed (Event.id event) e)) db'
        = {| M.result := inr tt; M.store := M.store (body db');
             M.effects :=
               (M.effects (body db')
                ++ [Printed (event_check_failed (Event.id event) y)])%list |}).
Proof.
  intros o. subst o. rewrite send_upcoming_run.
  destruct (Database.select_sent _ _ _); [discriminate |]. cbv zeta.
  destruct (existsb _ _); [| discriminate].
  destruct (Database.insert_sent _ _ _) as [y |] eqn:Eins; [| discriminate].
  cbn [M.result M.store]. intros [= ->].
  split; [| split; [reflexivity | split; [apply scan_returns |]]];
    [| intros ct db' y; cbv zeta; intros Hy; unfold M.try_except; rewrite Hy;
       reflexivity].
  unfold Database.insert_sent in Eins.
  destruct (Event.id event) as [i |]; [| injection Eins as <-; eexists; split; [reflexivity | discriminate]].
  destruct (existsb (Database.key_eqb (i, h)) _) eqn:Eseen.
  - injection Eins as <-. eexists. split; [reflexivity |].
    intros _. exists i. split; [reflexivity |]. apply seen_iff, Eseen.
  - destruct (negb _); [| discriminate].
    injection Eins as <-. eexists. split; [reflexivity | discriminate].
Qed.

(** *** The upcoming-events query *)

Lemma insert_by_datetime_perm r l :
  Permutation (Database.insert_by_datetime r l) (r :: l).
Proof.
  induction l as [| x l IH]; simpl; auto.
  destruct (String.leb _ _); auto.
  rewrite IH. apply perm_swap.
Qed.

Lemma order_by_datetime_perm l : Permutation (Database.order_by_datetime l) l.
Proof.
  induction l as [| r l IH]; simpl; auto.
  rewrite insert_by_datetime_perm. auto.
Qed.

Lemma insert_by_datetime_sorted r l :
  Sorted Spec.text_le l -> Sorted Spec.text_le (Database.insert_by_datetime r l).
Proof.
  induction 1 as [| x l Hl IH Hx]; simpl.
  - repeat constructor.
  - destruct (String.leb (Database.row_event_datetime r)
                         (Database.row_event_datetime x)) eqn:E.
    + constructor; [constructor; assumption | constructor; exact E].
    + constructor; [exact IH |].
      assert (Hxr : Spec.text_le x r).
      { destruct (String.leb_total (Database.row_event_datetime r)
                                   (Database.row_event_datetime x)); congruence. }
      destruct l as [| y l]; simpl; [constructor; exact Hxr |].
      destruct (String.leb (Database.row_event_datetime r)
                           (Database.row_event_datetime y));
        constructor; auto.
      inversion Hx; assumption.
Qed.

Lemma order_by_datetime_sorted l :
  Sorted Spec.text_le (Database.order_by_datetime l).
Proof.
  induction l as [| r l IH]; simpl; [constructor |].
  apply insert_by_datetime_sorted, IH.
Qed.

(** What [get_upcoming] returns, in the terms of the query: the stored rows
    whose [event_datetime] text is not below the host's naive
    [isoformat()] text of now, in ascending text order; the ledger is not
    consulted. *)
Lemma get_upcoming_by_text now db :
  let current_time := Datetime.isoformat (now + system_utcoffset now) in
  exists rows,
    Event.get_upcoming now db = map Event.of_row rows
    /\ Permutation rows
         (filter (fun r => String.leb current_time (Database.row_event_datetime r))
                 (Database.events db))
    /\ Sorted Spec.text_le rows
    /\ forall ledger,
         Event.get_upcoming now (Spec.with_ledger ledger db)
         = Event.get_upcoming now db.
Proof.
  intros current_time. eexists. split; [reflexivity |].
  split; [apply order_by_datetime_perm |].
  split; [apply order_by_datetime_sorted | reflexivity].
Qed.

(** *** The wording of a reminder *)

(** Up to twenty hours the unit chosen by the code is the grammatical one. *)
Lemma hours_text_grammatical_to_20 h :
  1 <= h <= 20 -> hours_text h = Spec.russian_hour_form h.
Proof.
  intros Hh.
  assert (Hcases : h = 1 \/ h = 2 \/ h = 3 \/ h = 4 \/ h = 5 \/ h = 6 \/ h = 7
            \/ h = 8 \/ h = 9 \/ h = 10 \/ h = 11 \/ h = 12 \/ h = 13 \/ h = 14
            \/ h = 15 \/ h = 16 \/ h = 17 \/ h = 18 \/ h = 19 \/ h = 20) by lia.
  repeat (destruct Hcases as [-> | Hcases]; [reflexivity |]).
  subst. reflexivity.
Qed.

(** The text of a reminder is a function of the event's fields and of the
    lead time: header, number, unit, then the formatted event. *)
Lemma reminder_text_composed event h :
  reminder_text event h
  = "⏰ <b>Напоминание: через " ++ Py.str h ++ " " ++ hours_text h
    ++ "</b>" ++ Py.nl ++ Py.nl ++ Event.format_message event.
Proof. reflexivity. Qed.

End Facts.

(* ================================================================== *)
(** ** Concrete runs *)

Module Examples.
Import NotificationService.

Lemma store_with_wf recipients :
  NoDup recipients -> Database.wf (Scenario.store_with recipients).
Proof.
  intros H. split; simpl.
  - rewrite map_map. simpl. rewrite map_id. exact H.
  - constructor; [simpl; tauto | constructor].
  - constructor.
Qed.

Lemma two_recipients : NoDup [7; 8].
Proof.
  constructor; [simpl; intros [H | []]; discriminate |].
  constructor; [simpl; tauto | constructor].
Defined.

(** C9, at the default lead time.  For [hours_before = 24] the code writes
    "через 24 часов"; after 24 Russian requires the form "часа". *)
Lemma reminder_24_hours_wording :
  hours_text 24 = "часов"
  /\ Spec.russian_hour_form 24 = "часа"
  /\ @reminder_text Scenario.utc (Scenario.party Scenario.christmas) 24
     = "⏰ <b>Напоминание: через 24 часов</b>" ++ Py.nl ++ Py.nl
       ++ @Event.format_message Scenario.utc (Scenario.party Scenario.christmas).
Proof. repeat split; vm_compute; reflexivity. Qed.

(** C7, on a host in UTC with [TIMEZONE=Europe/Moscow].  At 16:00 UTC the
    event entered for 18:00 Moscow time began an hour ago (15:00 UTC), yet
    [get_upcoming] returns it: the query compares the stored text
    "2024-12-25T18:00:00+03:00" with the host's naive "2024-12-25T16:00:00". *)
Lemma past_event_listed_as_upcoming :
  let now := Datetime.of_fields 2024 12 25 16 0 0 0 in
  let event := Scenario.party Scenario.christmas_msk in
  @Event.get_upcoming Scenario.moscow_on_utc_host now Scenario.store_msk = [event]
  /\ @Spec.instant_of_event Scenario.moscow_on_utc_host event
     = Some (Datetime.of_fields 2024 12 25 15 0 0 0)
  /\ Datetime.of_fields 2024 12 25 15 0 0 0 < now.
Proof. repeat split; vm_compute; reflexivity. Qed.

(** The same with the naive text that [handlers/admin.py] stores
    ([strptime(...).isoformat()]): the scan reads "2024-12-25T18:00:00" in
    the configured zone, 15:00 UTC, and at 16:00 UTC [get_upcoming] still
    returns the event. *)
Lemma past_naive_event_listed_as_upcoming :
  let now := Datetime.of_fields 2024 12 25 16 0 0 0 in
  let text := "2024-12-25T18:00:00" in
  let db := {| Database.users := [Scenario.subscriber 7];
               Database.events := [Scenario.party_row text];
               Database.sent_notifications := [] |} in
  @Event.get_upcoming Scenario.moscow_on_utc_host now db = [Scenario.party text]
  /\ @Spec.instant_of_event Scenario.moscow_on_utc_host (Scenario.party text)
     = Some (Datetime.of_fields 2024 12 25 15 0 0 0)
  /\ Datetime.of_fields 2024 12 25 15 0 0 0 < now.
Proof. repeat split; vm_compute; reflexivity. Qed.

Lemma reminder_sent_once_witness :
  let event := Scenario.party Scenario.christmas in
  let db := Scenario.store_with [7; 8] in
  let first :=
    @send_upcoming_event_notification Scenario.utc event 24
      (alone (Scenario.always true)) db in
  let second :=
    @send_upcoming_event_notification Scenario.utc event 24 Scenario.racing
      (M.store first) in
  Event.id event = Some 1
  /\ Database.wf db
  /\ In (1, 24) (Database.sent_notifications (M.store first))
  /\ second = Spec.no_op (M.store first)
  /\ Spec.entries 1 24 (M.store second) = 1%nat.
Proof.
  intros event db first second.
  assert (Hid : Event.id event = Some 1) by reflexivity.
  assert (Hwf : Database.wf db) by (apply store_with_wf, two_recipients).
  assert (Hin : In (1, 24) (Database.sent_notifications (M.store first)))
    by (vm_compute; left; reflexivity).
  destruct (@reminder_sent_once Scenario.utc event 24 1 (Scenario.always true)
              Scenario.racing db Hid Hwf Hin) as (_ & H2 & H3 & _).
  exact (conj Hid (conj Hwf (conj Hin (conj H2 H3)))).
Defined.

Lemma ledger_written_iff_delivered_witness :
  let event := Scenario.party Scenario.christmas in
  let db := Scenario.store_with [7; 8] in
  let f := Scenario.all_but 8 in
  let o := @send_upcoming_event_notification Scenario.utc event 24 (alone f) db in
  let text := @reminder_text Scenario.utc event 24 in
  Event.id event = Some 1
  /\ Database.has_event 1 db = true
  /\ Database.select_sent (Some 1) 24 db = None
  /\ existsb (@Spec.accepts Scenario.utc f event 24) (User.get_subscribed_users db)
     = true
  /\ M.result o = inr tt
  /\ ((exists c, In (Called c true) (M.effects o)) <->
      Database.sent_notifications (M.store o) = [(1, 24)])
  /\ In (Called (delivery event 7 text) true) (M.effects o)
  /\ In (Called (delivery event 8 text) false) (M.effects o)
  /\ M.store o = Spec.with_ledger [(1, 24)] db
  /\ In (1, 24) (Database.sent_notifications (M.store o)).
Proof.
  intros event db f o text.
  assert (Hid : Event.id event = Some 1) by reflexivity.
  assert (Hev : Database.has_event 1 db = true) by reflexivity.
  assert (Hsel : Database.select_sent (Some 1) 24 db = None) by reflexivity.
  assert (Hacc : existsb (@Spec.accepts Scenario.utc f event 24)
                         (User.get_subscribed_users db) = true) by reflexivity.
  destruct (@ledger_written_iff_delivered Scenario.utc event 24 1 f db Hid Hev)
    as (H1 & H2 & _ & _ & H5).
  destruct (H5 Hsel) as (Hcalls & Hyes & _).
  destruct (Hyes Hacc) as (Hstore & Hin).
  exact (conj Hid (conj Hev (conj Hsel (conj Hacc (conj H1 (conj H2
           (conj (Hcalls 7 (or_introl eq_refl))
              (conj (Hcalls 8 (or_intror (or_introl eq_refl)))
                 (conj Hstore Hin))))))))).
Defined.

(** C4, refuted as stated.  While the reminder [(1, 24)] is being delivered
    another writer records it; the INSERT then violates the uniqueness
    constraint and the [IntegrityError] leaves
    [send_upcoming_event_notification] instead of being absorbed there. *)
Lemma uniqueness_error_not_absorbed :
  let o :=
    @send_upcoming_event_notification Scenario.utc (Scenario.party Scenario.christmas) 24
      Scenario.racing (Scenario.store_with [7]) in
  Database.insert_sent (Some 1) 24 (M.store o) = inl (Py.IntegrityError Py.UNIQUE)
  /\ M.result o = inl (Py.IntegrityError Py.UNIQUE)
  /\ M.result o <> inr tt.
Proof. vm_compute. repeat split; discriminate || reflexivity. Qed.

Lemma uniqueness_error_leaves_send_witness :
  let event := Scenario.party Scenario.christmas in
  let db := Scenario.store_with [7] in
  let o := @send_upcoming_event_notification Scenario.utc event 24 Scenario.racing db in
  M.result o = inl (Py.IntegrityError Py.UNIQUE)
  /\ In (1, 24) (Database.sent_notifications (M.store o))
  /\ M.result (@check_and_send_reminders Scenario.utc Scenario.racing Scenario.half_a_minute_late db)
     = inr tt.
Proof.
  intros event db o.
  assert (Hraised : M.result o = inl (Py.IntegrityError Py.UNIQUE))
    by (vm_compute; reflexivity).
  destruct (@uniqueness_error_leaves_send Scenario.utc event 24 Scenario.racing db
              (Py.IntegrityError Py.UNIQUE) Scenario.half_a_minute_late Hraised)
    as ((c & Hc & Hseen) & _ & Hscan & _).
  injection Hc as <-.
  destruct (Hseen eq_refl) as (i & Hi & Hin).
  injection Hi as <-.
  exact (conj Hraised (conj Hin Hscan)).
Defined.

(** C5, refuted as stated.  With a single subscribed recipient whose
    delivery fails, exactly one delivery call fails and the ledger entry is
    not written. *)
Lemma single_failure_not_recorded :
  let db := Scenario.store_with [7] in
  let o :=
    @send_upcoming_event_notification Scenario.utc (Scenario.party Scenario.christmas) 24
      (alone (Scenario.always false)) db in
  List.length (User.get_subscribed_users db) = 1%nat
  /\ Spec.failures (M.effects o) = 1%nat
  /\ Database.sent_notifications (M.store o) = []
  /\ ~ In (1, 24) (Database.sent_notifications (M.store o)).
Proof. vm_compute. repeat split; auto. Qed.

Lemma one_failure_is_isolated_witness :
  let event := Scenario.party Scenario.christmas in
  let db := Scenario.store_with [7; 8; 9] in
  let o :=
    @send_upcoming_event_notification Scenario.utc event 24
      (alone (Scenario.all_but 8)) db in
  Event.id event = Some 1
  /\ Database.has_event 1 db = true
  /\ Spec.failures (M.effects o) = 1%nat
  /\ (2 <= List.length (User.get_subscribed_users db))%nat
  /\ Spec.successes (M.effects o) = 2%nat
  /\ Database.sent_notifications (M.store o) = [(1, 24)].
Proof.
  intros event db o.
  assert (Hid : Event.id event = Some 1) by reflexivity.
  assert (Hev : Database.has_event 1 db = true) by reflexivity.
  assert (Hone : Spec.failures (M.effects o) = 1%nat) by (vm_compute; reflexivity).
  assert (Htwo : (2 <= List.length (User.get_subscribed_users db))%nat)
    by (simpl; lia).
  destruct (@one_failure_is_isolated Scenario.utc event 24 1 (Scenario.all_but 8) db
              Hid Hev Hone Htwo) as (_ & Hs & _ & Hl).
  exact (conj Hid (conj Hev (conj Hone (conj Htwo (conj Hs Hl))))).
Defined.


(** The second scan of the window-matching property: five minutes before
    the 24-hour mark nothing is sent. *)
Lemma five_minutes_early_skipped :
  M.effects (@check_and_send_reminders Scenario.utc (alone (Scenario.always true))
               Scenario.five_minutes_early (Scenario.store_with [7])) = [].
Proof. vm_compute. reflexivity. Qed.

(** The other direction of C7, with [TIMEZONE=America/New_York] on a host in
    UTC: at 18:00:01 UTC the event of 18:00 New York time (23:00 UTC) is
    five hours ahead and no longer returned, so the scan at its one-hour
    mark reaches no send. *)
Lemma future_event_dropped :
  let event := Scenario.party Scenario.christmas_nyc in
  let now := Datetime.of_fields 2024 12 25 18 0 1 0 in
  let one_hour_mark := Datetime.of_fields 2024 12 25 22 0 0 0 in
  @Event.get_upcoming Scenario.new_york_on_utc_host now Scenario.store_nyc = []
  /\ @Spec.instant_of_event Scenario.new_york_on_utc_host event
     = Some (Datetime.of_fields 2024 12 25 23 0 0 0)
  /\ M.effects (@check_and_send_reminders Scenario.new_york_on_utc_host
                  (alone (Scenario.always true)) one_hour_mark Scenario.store_nyc)
     = [].
Proof. repeat split; vm_compute; reflexivity. Qed.

End Examples.

(* ================================================================== *)
(** ** Further properties: what a scan does to the store *)

Section ScanFacts.
Context {env : Environment}.
Import NotificationService.

Section Kept.
Variable R : Database.t -> Database.t -> Prop.
Hypothesis R_refl : forall db, R db db.
Hypothesis R_trans : forall a b c, R a b -> R b c -> R a c.

Lemma bind_keeps {A B} (m : M.t A) (k : A -> M.t B) db :
  R db (M.store (m db)) ->
  (forall a db', R db' (M.store (k a db'))) ->
  R db (M.store (M.bind m k db)).
Proof.
  intros Hm Hk. unfold M.bind.
  destruct (M.result (m db)) as [e | a]; simpl; eauto.
Qed.

Lemma try_except_keeps {A} (body : M.t A) handler db :
  R db (M.store (body db)) ->
  (forall e db', R db' (M.store (handler e db'))) ->
  R db (M.store (M.try_except body handler db)).
Proof.
  intros Hb Hh. unfold M.try_except.
  destruct (M.result (body db)) as [e | a]; simpl; eauto.
Qed.

Lemma for_each_keeps {A} (l : list A) (body : A -> M.t unit) :
  (forall a db, R db (M.store (body a db))) ->
  forall db, R db (M.store (M.for_each l body db)).
Proof.
  intros Hb. unfold M.for_each.
  induction l as [| a l IH]; intros db; simpl; [apply R_refl |].
  apply bind_keeps; [apply Hb | intros [] db'; apply IH].
Qed.

(** Where in a loop an effect comes from: an iteration, the store it started
    from and the store the loop ended with. *)
Lemma for_each_effects_at {A} (l : list A) (body : A -> M.t unit) x :
  (forall a db, R db (M.store (body a db))) ->
  forall db, In x (M.effects (M.for_each l body db)) ->
  exists a db', In a l /\ R db db' /\ In x (M.effects (body a db'))
                /\ R (M.store (body a db')) (M.store (M.for_each l body db)).
Proof.
  intros Hb. unfold M.for_each.
  induction l as [| a l IH]; intros db H; simpl in H; [contradiction |].
  simpl M.for_fold. unfold M.bind in *.
  destruct (M.result (body a db)) as [e | []] eqn:E; simpl in *.
  - exists a, db. repeat split; auto.
  - apply in_app_or in H as [H | H].
    + exists a, db. repeat split; auto.
      apply (for_each_keeps l body Hb).
    + destruct (IH _ H) as (a' & db' & Ha & Hr & Hx & Hend).
      exists a', db'. repeat split; auto. eapply R_trans; eauto.
Qed.

End Kept.

(** *** The ledger only grows *)

Lemma grows_refl db : Inv.grows db db.
Proof.
  split; auto. exists []. rewrite app_nil_r. repeat split; auto.
Qed.

Lemma grows_trans a b c : Inv.grows a b -> Inv.grows b c -> Inv.grows a c.
Proof.
  intros [Hu1 He1 (l1 & E1 & F1 & N1)] [Hu2 He2 (l2 & E2 & F2 & N2)].
  split; [congruence | congruence |].
  exists (l1 ++ l2)%list. split; [| split].
  - rewrite E2, E1, app_assoc. reflexivity.
  - intros k Hk. apply in_app_or in Hk as [Hk | Hk]; auto.
    specialize (F2 k Hk). unfold Database.has_event in *. congruence.
  - auto.
Qed.

Lemma grows_incl db db' k :
  Inv.grows db db' ->
  In k (Database.sent_notifications db) -> In k (Database.sent_notifications db').
Proof.
  intros [_ _ (l & E & _)] H. rewrite E. apply in_or_app. auto.
Qed.

Lemma grows_subscribers db db' :
  Inv.grows db db' -> User.get_subscribed_users db' = User.get_subscribed_users db.
Proof.
  intros [Hu _ _]. unfold User.get_subscribed_users, Database.select_subscribed.
  congruence.
Qed.

Lemma grows_has_event db db' i :
  Inv.grows db db' -> Database.has_event i db' = Database.has_event i db.
Proof. intros [_ He _]. unfold Database.has_event. congruence. Qed.

Lemma grows_upcoming db db' now :
  Inv.grows db db' -> Event.get_upcoming now db' = Event.get_upcoming now db.
Proof.
  intros [_ He _]. unfold Event.get_upcoming, Database.select_upcoming. congruence.
Qed.

Lemma insert_sent_grows i h db db' :
  Database.insert_sent (Some i) h db = inr db' -> Inv.grows db db'.
Proof.
  unfold Database.insert_sent.
  destruct (existsb _ _) eqn:Eseen; [discriminate |].
  destruct (Database.has_event i db) eqn:Eev; simpl; [| discriminate].
  intros [= <-]. split; simpl; auto.
  exists [(i, h)]. repeat split; auto.
  - intros k [<- | []]. exact Eev.
  - intros Hn. apply NoDup_app; auto.
    + constructor; [simpl; tauto | constructor].
    + intros k Hk [<- | []]. apply seen_iff in Hk. congruence.
Qed.

Lemma send_upcoming_grows event h f db :
  Inv.grows db (M.store (send_upcoming_event_notification event h (alone f) db)).
Proof.
  rewrite send_upcoming_run.
  destruct (Database.select_sent _ _ _); [apply grows_refl |]. cbv zeta.
  rewrite after_calls_alone.
  destruct (existsb _ _); [| apply grows_refl].
  destruct (Database.insert_sent _ _ _) as [x | db2] eqn:E; [apply grows_refl |].
  cbn [M.store]. destruct (Event.id event) as [i |]; [| discriminate].
  eapply insert_sent_grows; eauto.
Qed.

Lemma remind_if_due_grows event ed ct f h db :
  Inv.grows db (M.store (remind_if_due event ed ct (alone f) h db)).
Proof.
  unfold remind_if_due. destruct (within_a_minute _); [| apply grows_refl].
  apply (bind_keeps Inv.grows grows_trans); [apply grows_refl |].
  intros _ db'. apply send_upcoming_grows.
Qed.

Lemma check_event_grows f ct event db :
  Inv.grows db (M.store (check_event (alone f) ct event db)).
Proof.
  unfold check_event.
  destruct (fromisoformat _); [| apply grows_refl].
  apply (for_each_keeps Inv.grows grows_refl grows_trans).
  intros h db'. apply remind_if_due_grows.
Qed.

Lemma guarded_check_event_grows f ct event db :
  Inv.grows db
    (M.store (M.try_except (check_event (alone f) ct event)
                (fun e => M.print (event_check_failed (Event.id event) e)) db)).
Proof.
  apply (try_except_keeps Inv.grows grows_trans);
    [apply check_event_grows | intros; apply grows_refl].
Qed.

Lemma scan_grows f now db :
  Inv.grows db (M.store (check_and_send_reminders (alone f) now db)).
Proof.
  unfold check_and_send_reminders.
  apply (bind_keeps Inv.grows grows_trans); [apply grows_refl |].
  intros events db'.
  apply (for_each_keeps Inv.grows grows_refl grows_trans).
  intros event db''. apply guarded_check_event_grows.
Qed.

(** *** Where the sends of a scan come from *)

Lemma upcoming_stored now db event :
  In event (Event.get_upcoming now db) ->
  exists r, In r (Database.events db) /\ event = Event.of_row r.
Proof.
  unfold Event.get_upcoming, Database.select_upcoming. intros H.
  apply in_map_iff in H as (r & <- & Hr). exists r. split; auto.
  apply (Permutation_in _ (order_by_datetime_perm _)) in Hr.
  apply filter_In in Hr. tauto.
Qed.

Lemma stored_has_event r db :
  In r (Database.events db) -> Database.has_event (Database.row_id r) db = true.
Proof.
  intros H. unfold Database.has_event. apply existsb_exists.
  exists r. split; auto. apply Z.eqb_refl.
Qed.

Lemma guarded_store (body : M.t unit) (line : Py.exn -> Line) db :
  M.store (M.try_except body (fun e => M.print (line e)) db) = M.store (body db).
Proof. unfold M.try_except. destruct (M.result (body db)); reflexivity. Qed.

Lemma remind_if_due_run event ed ct bot h db :
  within_a_minute (time_diff ct (Datetime.minus_hours ed h)) = true ->
  M.store (remind_if_due event ed ct bot h db)
  = M.store (send_upcoming_event_notification event h bot db)
  /\ M.effects (remind_if_due event ed ct bot h db)
     = Invoked event h
       :: M.effects (send_upcoming_event_notification event h bot db).
Proof. intros E. unfold remind_if_due. rewrite E. split; reflexivity. Qed.

(** An effect of a scan other than a printed line is the mark of a due pair
    or belongs to the send of a due pair, run from a store that the scan had
    only appended to. *)
Lemma scan_send_at f now db x :
  In x (M.effects (check_and_send_reminders (alone f) now db)) ->
  (forall l, x <> Printed l) ->
  exists event parsed h db2,
    In event (Event.get_upcoming now db)
    /\ fromisoformat (Event.event_datetime event) = Some parsed
    /\ In h NOTIFICATION_HOURS
    /\ Z.abs (now - Spec.target parsed h) <= 60 * Datetime.usec_per_sec
    /\ Inv.grows db db2
    /\ (x = Invoked event h
        \/ In x (M.effects (send_upcoming_event_notification event h (alone f) db2)))
    /\ Inv.grows
         (M.store (send_upcoming_event_notification event h (alone f) db2))
         (M.store (check_and_send_reminders (alone f) now db)).
Proof.
  intros H Hx. unfold check_and_send_reminders in *.
  rewrite (bind_ok _ _ _ (Event.get_upcoming now db)) in * by reflexivity.
  cbn [M.effects M.store M.query app] in *.
  apply (for_each_effects_at Inv.grows grows_refl grows_trans) in H
    as (event & db1 & Hev & G1 & H & Gend);
    [| intros; apply guarded_check_event_grows].
  rewrite guarded_store in Gend.
  apply try_except_effects_inv in H as [H | (e & _ & [H | []])];
    [| exfalso; eapply Hx; eauto].
  unfold check_event in H, Gend.
  destruct (fromisoformat (Event.event_datetime event)) as [parsed |] eqn:Ep;
    [| simpl in H; contradiction].
  cbv zeta in H, Gend.
  apply (for_each_effects_at Inv.grows grows_refl grows_trans) in H
    as (h & db2 & Hh & G2 & H & Gin);
    [| intros; apply remind_if_due_grows].
  destruct (within_a_minute
              (time_diff (Datetime.now_in TIMEZONE now)
                 (Datetime.minus_hours (in_timezone parsed) h))) eqn:Edue.
  - destruct (remind_if_due_run event (in_timezone parsed)
                (Datetime.now_in TIMEZONE now) (alone f) h db2 Edue) as [Es Ee].
    rewrite Es in Gin. rewrite Ee in H.
    exists event, parsed, h, db2.
    split; [exact Hev |]. split; [exact Ep |]. split; [exact Hh |].
    split; [apply due_iff, Edue |].
    split; [eapply grows_trans; eauto |].
    split; [destruct H as [<- | H]; auto |].
    eapply grows_trans; eauto.
  - unfold remind_if_due in H. rewrite Edue in H. simpl in H. contradiction.
Qed.

(** X1.  The store a scan leaves: [users] and [events] untouched, the ledger
    extended, the schema's invariants kept. *)
Theorem scan_only_appends f now db :
  let db' := M.store (check_and_send_reminders (alone f) now db) in
  Inv.grows db db'
  /\ (Database.wf db -> Database.wf db')
  /\ (Inv.references_ok db -> Inv.references_ok db').
Proof.
  intros db'. pose proof (scan_grows f now db) as G. fold db' in G.
  split; [exact G |]. destruct G as [Hu He (added & E & F & N)]. split.
  - intros [W1 W2 W3]. split; [rewrite Hu | rewrite He |]; auto.
  - intros Hold k Hk. unfold Database.has_event. rewrite He.
    rewrite E in Hk. apply in_app_or in Hk as [Hk | Hk]; [apply Hold | apply F]; auto.
Qed.

Lemma scan_call_due f now db c b :
  In (Called c b) (M.effects (check_and_send_reminders (alone f) now db)) ->
  exists event parsed h,
    In event (Event.get_upcoming now db)
    /\ fromisoformat (Event.event_datetime event) = Some parsed
    /\ In h NOTIFICATION_HOURS
    /\ Z.abs (now - Spec.target parsed h) <= 60 * Datetime.usec_per_sec
    /\ Inv.is_reminder_of c event h
    /\ In (chat_id_of c) (User.get_subscribed_users db)
    /\ Database.select_sent (Event.id event) h db = None.
Proof.
  intros H. apply scan_send_at in H
    as (event & parsed & h & db2 & Hev & Hp & Hh & Hdue & G & [H | H] & _);
    try discriminate.
  exists event, parsed, h. repeat split; auto;
    rewrite send_upcoming_run in H;
    destruct (Database.select_sent (Event.id event) h db2) eqn:Esel;
    try (simpl in H; contradiction); cbv zeta in H.
  - assert (Hrun : In (Called c b)
                     (Spec.reminder_run f event h (User.get_subscribed_users db2))).
    { destruct (existsb _ _); [destruct (Database.insert_sent _ _ _) |]; exact H. }
    apply called_in_reminder_run in Hrun as (u & _ & -> & _).
    unfold Inv.is_reminder_of. rewrite chat_id_of_delivery. reflexivity.
  - assert (Hrun : In (Called c b)
                     (Spec.reminder_run f event h (User.get_subscribed_users db2))).
    { destruct (existsb _ _); [destruct (Database.insert_sent _ _ _) |]; exact H. }
    apply called_in_reminder_run in Hrun as (u & Hu & -> & _).
    rewrite chat_id_of_delivery. rewrite <- (grows_subscribers _ _ G). exact Hu.
  - destruct (Event.id event) as [i |]; [| reflexivity].
    destruct (Database.select_sent (Some i) h db) as [k |] eqn:E0; auto.
    exfalso. simpl in E0, Esel.
    apply find_some in E0 as [Hk Ek]. apply key_eqb_eq in Ek. subst k.
    apply (grows_incl _ _ _ G) in Hk.
    apply (find_none _ _ Esel) in Hk.
    rewrite (proj2 (key_eqb_eq (i, h) (i, h)) eq_refl) in Hk. discriminate.
Qed.

Lemma scan_pair_recorded f now db event h :
  In (Invoked event h) (M.effects (check_and_send_reminders (alone f) now db)) ->
  existsb (Spec.accepts f event h) (User.get_subscribed_users db) = true ->
  exists i, Event.id event = Some i
    /\ In (i, h) (Database.sent_notifications
                    (M.store (check_and_send_reminders (alone f) now db))).
Proof.
  intros H Hacc. apply scan_send_at in H
    as (e & parsed & h' & db2 & Hev & Hp & Hh & Hdue & G & [H | H] & Gend);
    try discriminate; [| apply send_upcoming_no_invoked in H; contradiction].
  injection H as <- <-.
  destruct (upcoming_stored _ _ _ Hev) as (r & Hr & ->).
  exists (Database.row_id r). split; [reflexivity |].
  apply (grows_incl _ _ _ Gend).
  rewrite send_upcoming_run. cbn [Event.of_row Event.id].
  destruct (Database.select_sent (Some (Database.row_id r)) h db2) as [k |] eqn:Esel.
  - simpl in Esel. apply find_some in Esel as [Hk Ek].
    apply key_eqb_eq in Ek. subst k. exact Hk.
  - cbv zeta. rewrite after_calls_alone, (grows_subscribers _ _ G).
    cbn [answers alone]. rewrite Hacc.
    unfold Database.insert_sent.
    rewrite (select_sent_none _ _ _ Esel), (grows_has_event _ _ _ G),
      (stored_has_event _ _ Hr).
    cbn. apply in_or_app. right. left. reflexivity.
Qed.

Lemma send_upcoming_calls event h bot db c b :
  In (Called c b) (M.effects (send_upcoming_event_notification event h bot db)) ->
  In (chat_id_of c) (User.get_subscribed_users db) /\ Inv.is_reminder_of c event h.
Proof.
  rewrite send_upcoming_run.
  destruct (Database.select_sent _ _ _); [simpl; contradiction |]. cbv zeta.
  intros H.
  assert (Hrun : In (Called c b)
                   (Spec.reminder_run (answers bot) event h
                      (User.get_subscribed_users db))).
  { destruct (existsb _ _); [destruct (Database.insert_sent _ _ _) |]; exact H. }
  apply called_in_reminder_run in Hrun as (u & Hu & -> & _).
  unfold Inv.is_reminder_of. rewrite chat_id_of_delivery. auto.
Qed.

Lemma send_new_event_calls event bot db c b :
  In (Called c b) (M.effects (send_new_event_notification event bot db)) ->
  In (chat_id_of c) (User.get_subscribed_users db).
Proof.
  destruct bot as [bot |]; [| simpl; contradiction].
  rewrite send_new_event_run. cbn [M.effects].
  unfold Spec.new_event_run, Spec.new_event_step. rewrite in_flat_map.
  intros (u & Hu & H).
  destruct (answers bot _); simpl in H.
  - destruct H as [H | []]. injection H as <- _.
    rewrite chat_id_of_delivery. exact Hu.
  - destruct H as [H | [H | []]]; [| discriminate]. injection H as <- _.
    rewrite chat_id_of_delivery. exact Hu.
Qed.

(** X2.  Every Bot API call of a scan is the reminder of a due pair of an
    upcoming event, addressed to a recipient who was subscribed when the
    scan began, and for a pair the ledger did not hold then. *)
Theorem scan_calls_are_due_reminders f now db c b :
  In (Called c b) (M.effects (check_and_send_reminders (alone f) now db)) ->
  exists event parsed h,
    In event (Event.get_upcoming now db)
    /\ fromisoformat (Event.event_datetime event) = Some parsed
    /\ In h NOTIFICATION_HOURS
    /\ Z.abs (now - Spec.target parsed h) <= 60 * Datetime.usec_per_sec
    /\ Inv.is_reminder_of c event h
    /\ In (chat_id_of c) (User.get_subscribed_users db)
    /\ Database.select_sent (Event.id event) h db = None.
Proof. apply scan_call_due. Qed.

(** X3.  A due pair that a scan reaches and delivers to at least one recipient is
    in the ledger when the scan ends. *)
Theorem scan_records_delivered_pairs f now db event h :
  In (Invoked event h) (M.effects (check_and_send_reminders (alone f) now db)) ->
  existsb (Spec.accepts f event h) (User.get_subscribed_users db) = true ->
  exists i, Event.id event = Some i
    /\ In (i, h) (Database.sent_notifications
                    (M.store (check_and_send_reminders (alone f) now db))).
Proof. apply scan_pair_recorded. Qed.

(** X4.  The retry policy over two scans in succession.  Whatever the
    second scan sends is the reminder, to a user subscribed from the start,
    of a pair that is due at the second scan, of an event upcoming in the
    store, and that the ledger did not hold after the first scan: the first
    scan did not reach that pair or could deliver it to nobody.  And a pair
    that the first scan reached and delivered to at least one recipient is
    in the ledger from then on, so that its send is a no-op in every later
    store, on every channel. *)
Theorem second_scan_sends_only_undelivered f1 f2 now1 now2 db :
  let first := check_and_send_reminders (alone f1) now1 db in
  let second := check_and_send_reminders (alone f2) now2 (M.store first) in
  (forall c b, In (Called c b) (M.effects second) ->
     exists event h,
       Inv.due_pair now2 db event h
       /\ Inv.is_reminder_of c event h
       /\ In (chat_id_of c) (User.get_subscribed_users db)
       /\ Database.select_sent (Event.id event) h (M.store first) = None
       /\ (In (Invoked event h) (M.effects first) ->
           existsb (Spec.accepts f1 event h) (User.get_subscribed_users db)
           = false))
  /\ (forall event h,
        In (Invoked event h) (M.effects first) ->
        existsb (Spec.accepts f1 event h) (User.get_subscribed_users db) = true ->
        exists i,
          Event.id event = Some i
          /\ In (i, h) (Database.sent_notifications (M.store first))
          /\ In (i, h) (Database.sent_notifications (M.store second))
          /\ forall bot db2, Inv.grows (M.store first) db2 ->
               send_upcoming_event_notification event h bot db2 = Spec.no_op db2).
Proof.
  intros first second.
  pose proof (scan_grows f1 now1 db) as G. fold first in G.
  pose proof (scan_grows f2 now2 (M.store first)) as G2. fold second in G2.
  split.
  - intros c b H.
    apply scan_call_due in H
      as (event & parsed & h & Hev & Hp & Hh & Hdue & Hc & Hu & Hsel).
    exists event, h.
    split.
    { split; [rewrite <- (grows_upcoming _ _ now2 G); exact Hev |].
      split; [exact Hh |]. exists parsed. auto. }
    split; [exact Hc |].
    split; [rewrite <- (grows_subscribers _ _ G); exact Hu |].
    split; [exact Hsel |].
    intros Hinv.
    destruct (existsb _ _) eqn:Eacc; [exfalso | reflexivity].
    destruct (scan_pair_recorded f1 now1 db event h Hinv Eacc) as (i & Hi & Hin).
    fold first in Hin. rewrite Hi in Hsel.
    destruct (select_sent_found _ _ _ Hin) as (k & Hk). congruence.
  - intros event h Hinv Hacc.
    destruct (scan_pair_recorded f1 now1 db event h Hinv Hacc) as (i & Hi & Hin).
    fold first in Hin. exists i. split; [exact Hi |]. split; [exact Hin |].
    split; [apply (grows_incl _ _ _ G2), Hin |].
    intros bot db2 Gd. apply (send_upcoming_skips_sent _ _ i); auto.
    apply (grows_incl _ _ _ Gd), Hin.
Qed.


(** *** The run of a scan, step by step *)

Section Traced.
Variable I : Database.t -> list Effect -> Prop.
Hypothesis I_incl : forall db pre pre', incl pre pre' -> I db pre -> I db pre'.





End Traced.
















End ScanFacts.

(* ================================================================== *)
(** ** Further properties: users and subscriptions *)

Section UserFacts.
Context {env : Environment}.
Import NotificationService.

Lemma place_user_perm r l : Permutation (Sql.place_user r l) (r :: l).
Proof.
  induction l as [| x l IH]; simpl; auto.
  destruct (_ <? _); auto.
  rewrite IH. apply perm_swap.
Qed.

Lemma place_user_in r l x : In x (Sql.place_user r l) <-> x = r \/ In x l.
Proof.
  split; intros H.
  - apply (Permutation_in _ (place_user_perm r l)) in H. simpl in H.
    destruct H; auto.
  - apply (Permutation_in _ (Permutation_sym (place_user_perm r l))).
    simpl. destruct H; auto.
Qed.

Lemma find_place_other (p : Database.users_row -> bool) r l :
  p r = false -> find p (Sql.place_user r l) = find p l.
Proof.
  intros Hr. induction l as [| x l IH]; simpl; [rewrite Hr; reflexivity |].
  destruct (_ <? _); simpl; [rewrite Hr; reflexivity |].
  destruct (p x); auto.
Qed.

Lemma find_place_new (p : Database.users_row -> bool) r l :
  p r = true -> (forall x, In x l -> p x = false) ->
  find p (Sql.place_user r l) = Some r.
Proof.
  intros Hr. induction l as [| x l IH]; simpl; intros Hl; [rewrite Hr; reflexivity |].
  destruct (_ <? _); simpl; [rewrite Hr; reflexivity |].
  rewrite (Hl x) by auto. apply IH. intros y Hy. apply Hl. auto.
Qed.

Lemma find_filter_keeps {A} (p q : A -> bool) l :
  (forall x, p x = true -> q x = true) -> find p (filter q l) = find p l.
Proof.
  intros Hpq. induction l as [| x l IH]; simpl; auto.
  destruct (q x) eqn:Eq; simpl.
  - destruct (p x); auto.
  - destruct (p x) eqn:Ep; auto. apply Hpq in Ep. congruence.
Qed.

Lemma NoDup_map_filter {A B} (g : A -> B) (q : A -> bool) l :
  NoDup (map g l) -> NoDup (map g (filter q l)).
Proof.
  induction l as [| x l IH]; simpl; intros H; [constructor |].
  inversion H as [| ? ? Hx Hl]; subst.
  destruct (q x); simpl; auto.
  constructor; auto.
  intros Hin. apply Hx.
  apply in_map_iff in Hin as (y & E & Hy).
  apply filter_In in Hy as [Hy _]. apply in_map_iff. eauto.
Qed.

Lemma subscribed_iff db j :
  In j (User.get_subscribed_users db) <->
  exists u, In u (Database.users db) /\ Database.telegram_id u = j
            /\ Database.is_subscribed u = 1.
Proof.
  unfold User.get_subscribed_users, Database.select_subscribed.
  rewrite in_map_iff. split.
  - intros (u & E & Hu). apply filter_In in Hu as [Hu Hf].
    apply Z.eqb_eq in Hf. eauto.
  - intros (u & Hu & E & Hf). exists u. split; auto.
    apply filter_In. split; auto. apply Z.eqb_eq. exact Hf.
Qed.

Lemma select_user_id i db u :
  Sql.select_user i db = Some u ->
  In u (Database.users db) /\ Database.telegram_id u = i.
Proof.
  unfold Sql.select_user. intros H. apply find_some in H as [Hu E].
  apply Z.eqb_eq in E. auto.
Qed.

Lemma select_user_none i db :
  Sql.select_user i db = None ->
  existsb (fun u => Database.telegram_id u =? i) (Database.users db) = false.
Proof.
  unfold Sql.select_user. intros H.
  destruct (existsb _ _) eqn:E; auto.
  apply existsb_exists in E as (u & Hu & Eu).
  apply (find_none _ _ H) in Hu. congruence.
Qed.

(** The store after [INSERT OR REPLACE] of a row. *)
Lemma replace_user_select r db j :
  Sql.select_user j (Sql.replace_user r db)
  = if j =? Database.telegram_id r then Some r else Sql.select_user j db.
Proof.
  unfold Sql.select_user, Sql.replace_user. simpl.
  destruct (Z.eqb_spec j (Database.telegram_id r)) as [-> | Hne].
  - apply find_place_new; [apply Z.eqb_refl |].
    intros x Hx. apply filter_In in Hx as [_ Hx].
    destruct (Database.telegram_id x =? Database.telegram_id r); auto.
  - rewrite find_place_other by (apply Z.eqb_neq; congruence).
    apply find_filter_keeps. intros x Hx. apply Z.eqb_eq in Hx.
    apply negb_true_iff, Z.eqb_neq. congruence.
Qed.

Lemma replace_user_subscribed r db j :
  In j (User.get_subscribed_users (Sql.replace_user r db)) <->
  (j = Database.telegram_id r /\ Database.is_subscribed r = 1)
  \/ (j <> Database.telegram_id r /\ In j (User.get_subscribed_users db)).
Proof.
  rewrite !subscribed_iff. unfold Sql.replace_user. simpl. split.
  - intros (u & Hu & <- & Hf). apply place_user_in in Hu as [-> | Hu]; auto.
    apply filter_In in Hu as [Hu Hne]. right.
    apply negb_true_iff, Z.eqb_neq in Hne. eauto.
  - intros [[-> Hf] | [Hne (u & Hu & <- & Hf)]].
    + exists r. split; [apply place_user_in; auto | auto].
    + exists u. split; [| auto]. apply place_user_in. right.
      apply filter_In. split; auto. apply negb_true_iff, Z.eqb_neq. exact Hne.
Qed.

Lemma replace_user_wf r db : Database.wf db -> Database.wf (Sql.replace_user r db).
Proof.
  intros [W1 W2 W3]. split; simpl; auto.
  eapply Permutation_NoDup;
    [apply Permutation_sym, Permutation_map, place_user_perm |].
  simpl. constructor; [| apply NoDup_map_filter; exact W1].
  intros Hin. apply in_map_iff in Hin as (x & E & Hx).
  apply filter_In in Hx as [_ Hx]. rewrite E, Z.eqb_refl in Hx. discriminate.
Qed.

Lemma replace_user_flags r db :
  Database.is_subscribed r = 0 \/ Database.is_subscribed r = 1 ->
  Inv.flags_ok db -> Inv.flags_ok (Sql.replace_user r db).
Proof.
  intros Hr Hdb u Hu. simpl in Hu. apply place_user_in in Hu as [-> | Hu]; auto.
  apply filter_In in Hu as [Hu _]. auto.
Qed.

Lemma insert_user_new i now db :
  Sql.select_user i db = None ->
  let row := {| Database.telegram_id := i; Database.is_subscribed := 1;
                Database.registered_at := Sql.datetime_now now |} in
  Sql.insert_user i 1 now db
  = inr (Sql.with_users (Sql.place_user row (Database.users db)) db).
Proof.
  intros H. unfold Sql.insert_user. rewrite (select_user_none _ _ H). reflexivity.
Qed.

Lemma placed_select r db j :
  Sql.select_user (Database.telegram_id r) db = None ->
  Sql.select_user j (Sql.with_users (Sql.place_user r (Database.users db)) db)
  = if j =? Database.telegram_id r then Some r else Sql.select_user j db.
Proof.
  intros Hnone. unfold Sql.select_user. simpl.
  destruct (Z.eqb_spec j (Database.telegram_id r)) as [-> | Hne].
  - apply find_place_new; [apply Z.eqb_refl |].
    intros x Hx. apply (find_none _ _ Hnone) in Hx. exact Hx.
  - apply find_place_other. apply Z.eqb_neq. congruence.
Qed.

Lemma placed_subscribed r db j :
  In j (User.get_subscribed_users
          (Sql.with_users (Sql.place_user r (Database.users db)) db)) <->
  (j = Database.telegram_id r /\ Database.is_subscribed r = 1)
  \/ In j (User.get_subscribed_users db).
Proof.
  rewrite !subscribed_iff. simpl. split.
  - intros (u & Hu & <- & Hf). apply place_user_in in Hu as [-> | Hu]; eauto.
  - intros [[-> Hf] | (u & Hu & <- & Hf)].
    + exists r. split; [apply place_user_in; auto | auto].
    + exists u. split; [apply place_user_in; auto | auto].
Qed.

Lemma placed_wf r db :
  Sql.select_user (Database.telegram_id r) db = None ->
  Database.wf db ->
  Database.wf (Sql.with_users (Sql.place_user r (Database.users db)) db).
Proof.
  intros Hnone [W1 W2 W3]. split; simpl; auto.
  eapply Permutation_NoDup;
    [apply Permutation_sym, Permutation_map, place_user_perm |].
  simpl. constructor; auto.
  intros Hin. apply in_map_iff in Hin as (x & E & Hx).
  apply (find_none _ _ Hnone) in Hx. rewrite E, Z.eqb_refl in Hx. discriminate.
Qed.

(** X5.  [User.get_or_create] always returns; it registers a user it does not know
    as subscribed and writes nothing for one it knows, whose subscription it
    reports; the rows of all other users are as before; a second call is a
    pure read. *)
Theorem get_or_create_registers_once i now db :
  exists user db',
    Users.get_or_create i now db = (inr user, db')
    /\ Users.telegram_id user = i
    /\ (exists row, Sql.select_user i db' = Some row
          /\ Database.telegram_id row = i
          /\ Users.is_subscribed user = negb (Database.is_subscribed row =? 0))
    /\ (forall j, j <> i -> Sql.select_user j db' = Sql.select_user j db)
    /\ (forall row, Sql.select_user i db = Some row -> db' = db)
    /\ (Sql.select_user i db = None ->
        In i (User.get_subscribed_users db')
        /\ Users.is_subscribed user = true
        /\ Users.get_all_users_count db' = Users.get_all_users_count db + 1)
    /\ (forall now', exists user',
          Users.get_or_create i now' db' = (inr user', db')
          /\ Users.is_subscribed user' = Users.is_subscribed user).
Proof.
  unfold Users.get_or_create.
  destruct (Sql.select_user i db) as [row |] eqn:Esel.
  - destruct (select_user_id _ _ _ Esel) as [Hrow Hid].
    do 2 eexists. split; [reflexivity |].
    split; [exact Hid |]. split; [eauto |]. split; [reflexivity |].
    split; [reflexivity |]. split; [discriminate |].
    intros now'. rewrite Esel. eexists. split; reflexivity.
  - rewrite (insert_user_new _ now _ Esel). cbv zeta.
    set (row := {| Database.telegram_id := i; Database.is_subscribed := 1;
                   Database.registered_at := Sql.datetime_now now |}).
    assert (Hsel : forall j,
              Sql.select_user j
                (Sql.with_users (Sql.place_user row (Database.users db)) db)
              = if j =? i then Some row else Sql.select_user j db)
      by (intros j; apply (placed_select row db j); exact Esel).
    do 2 eexists. split; [reflexivity |].
    split; [reflexivity |].
    split; [exists row; rewrite Hsel, Z.eqb_refl; auto |].
    split; [intros j Hj; rewrite Hsel; apply Z.eqb_neq in Hj; rewrite Hj; reflexivity |].
    split; [discriminate |].
    split.
    + intros _. split; [apply placed_subscribed; left; auto |].
      split; [reflexivity |].
      unfold Users.get_all_users_count, Sql.count_users. simpl.
      rewrite (Permutation_length (place_user_perm row (Database.users db))).
      simpl. lia.
    + intros now'. rewrite Hsel, Z.eqb_refl. eexists. split; reflexivity.
Qed.

Lemma get_or_create_then i now db :
  exists user db',
    Users.get_or_create i now db = (inr user, db')
    /\ Users.telegram_id user = i
    /\ (forall j, j <> i ->
          Sql.select_user j db' = Sql.select_user j db
          /\ (In j (User.get_subscribed_users db')
              <-> In j (User.get_subscribed_users db)))
    /\ Database.events db' = Database.events db
    /\ Database.sent_notifications db' = Database.sent_notifications db
    /\ (Database.wf db -> Database.wf db')
    /\ (Inv.flags_ok db -> Inv.flags_ok db').
Proof.
  unfold Users.get_or_create.
  destruct (Sql.select_user i db) as [row |] eqn:Esel.
  - destruct (select_user_id _ _ _ Esel) as [Hrow Hid].
    do 2 eexists. split; [reflexivity |]. split; [exact Hid |].
    split; [intros j _; split; [reflexivity | tauto] |].
    split; [reflexivity |]. split; [reflexivity |]. split; auto.
  - rewrite (insert_user_new _ now _ Esel). cbv zeta.
    set (row := {| Database.telegram_id := i; Database.is_subscribed := 1;
                   Database.registered_at := Sql.datetime_now now |}).
    do 2 eexists. split; [reflexivity |]. split; [reflexivity |].
    split; [| split; [reflexivity | split; [reflexivity | split]]].
    + intros j Hj. split.
      * rewrite (placed_select row db j Esel). simpl.
        apply Z.eqb_neq in Hj. rewrite Hj. reflexivity.
      * rewrite (placed_subscribed row db j). simpl. intuition.
    + apply (placed_wf row db Esel).
    + intros Hf u Hu. simpl in Hu. apply place_user_in in Hu as [-> | Hu]; auto.
Qed.

Lemma command_effect (flag : bool) i now db :
  exists db',
    (if flag then Users.subscribe_command i now db
     else Users.unsubscribe_command i now db) = inr db'
    /\ (In i (User.get_subscribed_users db') <-> flag = true)
    /\ (forall j, j <> i ->
          Sql.select_user j db' = Sql.select_user j db
          /\ (In j (User.get_subscribed_users db')
              <-> In j (User.get_subscribed_users db)))
    /\ (exists row, Sql.select_user i db' = Some row
          /\ Database.is_subscribed row = if flag then 1 else 0)
    /\ Database.events db' = Database.events db
    /\ Database.sent_notifications db' = Database.sent_notifications db
    /\ (Database.wf db -> Database.wf db')
    /\ (Inv.flags_ok db -> Inv.flags_ok db').
Proof.
  destruct (get_or_create_then i now db)
    as (user & dbg & Eg & Hid & Hother & Hev & Hled & Hwf & Hfl).
  set (row := {| Database.telegram_id := Users.telegram_id user;
                 Database.is_subscribed := if flag then 1 else 0;
                 Database.registered_at := Users.registered_at user |}).
  exists (Sql.replace_user row dbg).
  split.
  { unfold Users.subscribe_command, Users.unsubscribe_command. rewrite Eg.
    destruct flag; reflexivity. }
  split.
  { rewrite replace_user_subscribed. simpl. rewrite Hid.
    destruct flag; split; intros H; auto; try discriminate.
    - destruct H as [[_ H] | [H _]]; [discriminate | congruence]. }
  split.
  { intros j Hj. destruct (Hother j Hj) as [Hs Hm]. split.
    - rewrite replace_user_select. simpl. rewrite Hid.
      apply Z.eqb_neq in Hj. rewrite Hj. exact Hs.
    - rewrite replace_user_subscribed. simpl. rewrite Hid. rewrite <- Hm.
      intuition. }
  split.
  { exists row. rewrite replace_user_select.
    replace (Database.telegram_id row) with i by (symmetry; exact Hid).
    rewrite Z.eqb_refl. auto. }
  split; [exact Hev |]. split; [exact Hled |].
  split.
  - intros W. apply replace_user_wf, Hwf, W.
  - intros F. apply replace_user_flags; [destruct flag; simpl; auto | apply Hfl, F].
Qed.

(** X6.  The subscription commands of [handlers/start.py]: after [/subscribe] the
    user is among the recipients of the fan-outs, after [/unsubscribe] not;
    nobody else's row or subscription changes, [events] and the ledger are
    untouched, and the schema's invariants are kept. *)
Theorem subscription_commands i now db :
  exists db_on db_off,
    Users.subscribe_command i now db = inr db_on
    /\ Users.unsubscribe_command i now db = inr db_off
    /\ In i (User.get_subscribed_users db_on)
    /\ ~ In i (User.get_subscribed_users db_off)
    /\ (forall j, j <> i ->
          (In j (User.get_subscribed_users db_on)
           <-> In j (User.get_subscribed_users db))
          /\ (In j (User.get_subscribed_users db_off)
              <-> In j (User.get_subscribed_users db))
          /\ Sql.select_user j db_on = Sql.select_user j db
          /\ Sql.select_user j db_off = Sql.select_user j db)
    /\ (Database.events db_on = Database.events db
        /\ Database.sent_notifications db_on = Database.sent_notifications db
        /\ Database.events db_off = Database.events db
        /\ Database.sent_notifications db_off = Database.sent_notifications db)
    /\ (Database.wf db -> Database.wf db_on /\ Database.wf db_off)
    /\ (Inv.flags_ok db -> Inv.flags_ok db_on /\ Inv.flags_ok db_off).
Proof.
  destruct (command_effect true i now db)
    as (d1 & E1 & Hi1 & Ho1 & _ & Hev1 & Hl1 & Hw1 & Hf1).
  destruct (command_effect false i now db)
    as (d0 & E0 & Hi0 & Ho0 & _ & Hev0 & Hl0 & Hw0 & Hf0).
  exists d1, d0. split; [exact E1 |]. split; [exact E0 |].
  split; [apply Hi1; reflexivity |].
  split; [intros H; apply Hi0 in H; discriminate |].
  split.
  { intros j Hj. destruct (Ho1 j Hj), (Ho0 j Hj). auto. }
  split; [auto |].
  split; [intros W; split; auto | intros F; split; auto].
Qed.

Lemma attempts_new_event_run f event users u :
  Spec.attempts_to u (Spec.new_event_run f event users)
  = List.length (filter (fun v => v =? u) users).
Proof.
  unfold Spec.attempts_to, Spec.new_event_run, Spec.new_event_step.
  induction users as [| v users IH]; simpl; auto.
  rewrite filter_app, length_app, IH.
  destruct (f _); simpl; rewrite chat_id_of_delivery;
    destruct (v =? u); reflexivity.
Qed.

Lemma exactly_once (users : list Z) (u : Z) :
  NoDup users -> In u users ->
  List.length (filter (fun v => v =? u) users) = 1%nat.
Proof.
  induction 1 as [| v users Hv _ IH]; simpl; [contradiction |].
  intros [-> | Hin].
  - rewrite Z.eqb_refl. simpl. rewrite filter_absent by assumption. reflexivity.
  - destruct (Z.eqb_spec v u) as [-> | _]; [contradiction | auto].
Qed.

Lemma same_key_same_row (l : list Database.users_row) x y :
  NoDup (map Database.telegram_id l) -> In x l -> In y l ->
  Database.telegram_id x = Database.telegram_id y -> x = y.
Proof.
  induction l as [| z l IH]; simpl; [contradiction |].
  intros H Hx Hy E. inversion H as [| ? ? Hz Hl]; subst.
  destruct Hx as [-> | Hx], Hy as [-> | Hy]; auto.
  - exfalso. apply Hz. rewrite E. apply in_map. exact Hy.
  - exfalso. apply Hz. rewrite <- E. apply in_map. exact Hx.
Qed.

(** X7.  After [/unsubscribe] no Bot API call of the broadcast of a new event, of
    the fan-out of a reminder or of a whole scan is addressed to the user,
    whatever the event, the lead time and the channel. *)
Theorem unsubscribed_receives_nothing i now db :
  exists db',
    Users.unsubscribe_command i now db = inr db'
    /\ forall c b, chat_id_of c = i ->
         (forall event bot,
            ~ In (Called c b)
                (M.effects (send_new_event_notification event bot db')))
         /\ (forall event h bot,
               ~ In (Called c b)
                   (M.effects (send_upcoming_event_notification event h bot db')))
         /\ (forall f t,
               ~ In (Called c b)
                   (M.effects (check_and_send_reminders (alone f) t db'))).
Proof.
  destruct (command_effect false i now db) as (d & E & Hi & _).
  exists d. split; [exact E |].
  assert (Hout : ~ In i (User.get_subscribed_users d))
    by (intros H; apply Hi in H; discriminate).
  intros c b <-. split; [| split].
  - intros event bot H. apply Hout. eapply send_new_event_calls, H.
  - intros event h bot H. apply Hout. eapply send_upcoming_calls, H.
  - intros f t H. apply Hout.
    destruct (scan_call_due _ _ _ _ _ H)
      as (? & ? & ? & _ & _ & _ & _ & _ & Hin & _).
    exact Hin.
Qed.

(** X8.  After [/subscribe], in a store with one row per user, the broadcast of a
    new event and the fan-out of a reminder not yet in the ledger each
    address exactly one Bot API call to the user. *)
Theorem subscriber_addressed_once i now db (W : Database.wf db) :
  exists db',
    Users.subscribe_command i now db = inr db'
    /\ (forall event bot,
          Spec.attempts_to i
            (M.effects (send_new_event_notification event (Some bot) db')) = 1%nat)
    /\ (forall event h bot,
          Database.select_sent (Event.id event) h db' = None ->
          Spec.attempts_to i
            (M.effects (send_upcoming_event_notification event h bot db')) = 1%nat).
Proof.
  destruct (command_effect true i now db)
    as (d & E & Hi & _ & _ & _ & _ & Hw & _).
  exists d. split; [exact E |].
  assert (Hin : In i (User.get_subscribed_users d)) by (apply Hi; reflexivity).
  assert (Hnd : NoDup (User.get_subscribed_users d)).
  { apply select_subscribed_NoDup. destruct (Hw W) as [H _]. exact H. }
  split.
  - intros event bot. rewrite send_new_event_run. cbn [M.effects].
    rewrite attempts_new_event_run. apply exactly_once; assumption.
  - intros event h bot Hnone. rewrite send_upcoming_run, Hnone. cbv zeta.
    assert (Hrun : Spec.attempts_to i
                     (Spec.reminder_run (answers bot) event h
                        (User.get_subscribed_users d)) = 1%nat)
      by (rewrite attempts_reminder_run; apply exactly_once; assumption).
    destruct (existsb _ _); [destruct (Database.insert_sent _ _ _) |]; exact Hrun.
Qed.

(** X9.  In a store with one row per user and flags 0 or 1, the subscription that
    [User.get_or_create] reports is the one the fan-outs use: the object is
    subscribed iff the user is among [User.get_subscribed_users]. *)
Theorem reported_status_is_fanout_status i now db user db'
    (W : Database.wf db) (F : Inv.flags_ok db) :
  Users.get_or_create i now db = (inr user, db') ->
  (Users.is_subscribed user = true <-> In i (User.get_subscribed_users db')).
Proof.
  unfold Users.get_or_create.
  destruct (Sql.select_user i db) as [row |] eqn:Esel.
  - intros [= <- <-]. simpl.
    destruct (select_user_id _ _ _ Esel) as [Hrow Hid].
    rewrite subscribed_iff. split.
    + intros H. exists row. split; [exact Hrow |]. split; [exact Hid |].
      destruct (F row Hrow) as [E | E]; [rewrite E in H; discriminate | exact E].
    + intros (u & Hu & Eu & Ef).
      assert (u = row) as <-.
      { destruct W as [W _]. eapply same_key_same_row; eauto. congruence. }
      rewrite Ef. reflexivity.
  - rewrite (insert_user_new _ now _ Esel). cbv zeta. intros [= <- <-]. simpl.
    split; [| reflexivity]. intros _. apply placed_subscribed. left; auto.
Qed.

End UserFacts.

(* ================================================================== *)
(** ** Saving and deleting events *)

Section EventFacts.
Context {env : Environment}.
Import NotificationService.

Lemma format_ok_truthy f : Sql.format_ok f = true -> Py.truthy f = true.
Proof.
  unfold Sql.format_ok. rewrite !orb_true_iff, !String.eqb_eq.
  intros [[-> | ->] | ->]; reflexivity.
Qed.

Lemma or_else_same s d : Py.truthy s = true -> Py.or_else (Some s) d = s.
Proof. simpl. intros ->. reflexivity. Qed.

Lemma or_else_empty s : Py.or_else (Some s) "" = s.
Proof. destruct s; reflexivity. Qed.

(** Reading back the row an object was written as gives the object. *)
Lemma of_row_row_of i e :
  Sql.format_ok (Event.format e) = true ->
  Event.of_row (Sql.row_of i e) = Events.set_id i e.
Proof.
  intros H. unfold Event.of_row, Sql.row_of, Events.set_id.
  cbn [Database.row_id Database.row_title Database.row_description
       Database.row_event_datetime Database.row_location Database.row_format
       Database.row_link Database.row_photo_file_id].
  rewrite !or_else_empty, (or_else_same _ _ (format_ok_truthy _ H)). reflexivity.
Qed.

Lemma set_id_same i e : Event.id e = Some i -> Events.set_id i e = e.
Proof. destruct e; simpl; intros ->; reflexivity. Qed.

Lemma max_id_bounds seq (l : list Z) :
  seq <= fold_right Z.max seq l /\ forall x, In x l -> x <= fold_right Z.max seq l.
Proof.
  induction l as [| y l [IH1 IH2]]; simpl.
  - split; [lia | contradiction].
  - split; [lia |]. intros x [-> | Hx]; [lia |]. specialize (IH2 x Hx). lia.
Qed.

Lemma next_id_fresh seq db :
  seq < Sql.next_id seq db /\ Database.has_event (Sql.next_id seq db) db = false.
Proof.
  unfold Sql.next_id.
  destruct (max_id_bounds seq (map Database.row_id (Database.events db))) as [H1 H2].
  split; [lia |].
  unfold Database.has_event.
  destruct (existsb _ _) eqn:E; auto.
  apply existsb_exists in E as (r & Hr & Er). apply Z.eqb_eq in Er.
  specialize (H2 (Database.row_id r) (in_map _ _ _ Hr)). lia.
Qed.

Lemma has_event_find i db :
  Database.has_event i db = false -> Sql.select_event i db = None.
Proof.
  unfold Database.has_event, Sql.select_event. intros H.
  destruct (find _ _) as [r |] eqn:E; auto.
  apply find_some in E as [Hr Er].
  assert (existsb (fun r => Database.row_id r =? i) (Database.events db) = true)
    by (apply existsb_exists; eauto).
  congruence.
Qed.

Lemma find_app_last {A} (q : A -> bool) l x :
  find q (l ++ [x]) = match find q l with
                      | Some y => Some y
                      | None => if q x then Some x else None
                      end.
Proof.
  induction l as [| y l IH]; simpl; [reflexivity |].
  destruct (q y); auto.
Qed.

Lemma find_map_replace (i : Z) (new : Database.events_row) l :
  Database.row_id new = i ->
  forall j,
    find (fun r => Database.row_id r =? j)
         (map (fun r => if Database.row_id r =? i then new else r) l)
    = if j =? i
      then match find (fun r => Database.row_id r =? i) l with
           | Some _ => Some new
           | None => None
           end
      else find (fun r => Database.row_id r =? j) l.
Proof.
  intros Hnew j. induction l as [| x l IH]; simpl.
  - destruct (j =? i); reflexivity.
  - rewrite IH.
    destruct (Z.eqb_spec (Database.row_id x) i) as [Ex | Ex];
      destruct (Z.eqb_spec j i) as [Ej | Ej];
      try (destruct (Z.eqb_spec (Database.row_id new) j));
      try (destruct (Z.eqb_spec (Database.row_id x) j));
      try reflexivity; congruence.
Qed.

Lemma map_replace_ids (i : Z) (new : Database.events_row) l :
  Database.row_id new = i ->
  map Database.row_id (map (fun r => if Database.row_id r =? i then new else r) l)
  = map Database.row_id l.
Proof.
  intros Hnew. rewrite map_map. apply map_ext. intros r.
  destruct (Z.eqb_spec (Database.row_id r) i); congruence.
Qed.

Lemma has_event_by_ids i db :
  Database.has_event i db
  = existsb (fun x => x =? i) (map Database.row_id (Database.events db)).
Proof.
  unfold Database.has_event.
  induction (Database.events db) as [| r l IH]; simpl; congruence.
Qed.

Lemma has_event_ids db db' :
  map Database.row_id (Database.events db') = map Database.row_id (Database.events db) ->
  forall i, Database.has_event i db' = Database.has_event i db.
Proof.
  intros H i. rewrite !has_event_by_ids, H. reflexivity.
Qed.

(** X10.  Saving a new event with one of the three formats: the object receives a
    fresh id above the table counter, [Event.get_by_id] of that id reads the
    object back, every other event, the users and the ledger are as before,
    and no reminder is on record for the new event. *)
Theorem save_new_then_get seq self db :
  Event.id self = None ->
  Sql.format_ok (Event.format self) = true ->
  exists i db',
    Events.save seq self db = inr (Events.set_id i self, db')
    /\ seq < i
    /\ Database.has_event i db = false
    /\ Events.get_by_id i db' = Some (Events.set_id i self)
    /\ (forall j, j <> i -> Events.get_by_id j db' = Events.get_by_id j db)
    /\ Database.users db' = Database.users db
    /\ Database.sent_notifications db' = Database.sent_notifications db
    /\ (Database.wf db -> Database.wf db')
    /\ (Inv.references_ok db ->
        Inv.references_ok db'
        /\ forall h, Database.select_sent (Some i) h db' = None).
Proof.
  intros Hid Hfmt. unfold Events.save, Sql.insert_event. rewrite Hid, Hfmt.
  cbv zeta. set (i := Sql.next_id seq db).
  destruct (next_id_fresh seq db) as [Hseq Hfresh]. fold i in Hseq, Hfresh.
  pose proof (has_event_find _ _ Hfresh) as Hnone.
  do 2 eexists. split; [reflexivity |].
  split; [exact Hseq |]. split; [exact Hfresh |].
  split.
  { unfold Events.get_by_id, Sql.select_event. simpl.
    rewrite find_app_last. unfold Sql.select_event in Hnone. rewrite Hnone.
    simpl. rewrite Z.eqb_refl, of_row_row_of by exact Hfmt. reflexivity. }
  split.
  { intros j Hj. unfold Events.get_by_id, Sql.select_event. simpl.
    rewrite find_app_last.
    destruct (find _ (Database.events db)); [reflexivity |].
    simpl. assert ((i =? j) = false) as -> by (apply Z.eqb_neq; congruence).
    reflexivity. }
  split; [reflexivity |]. split; [reflexivity |].
  split.
  { intros [W1 W2 W3]. split; simpl; auto.
    rewrite map_app. simpl.
    eapply Permutation_NoDup; [apply Permutation_cons_append |].
    constructor; auto.
    intros Hin. apply in_map_iff in Hin as (r & Er & Hr).
    assert (Database.has_event i db = true)
      by (apply existsb_exists; exists r; split; [exact Hr | apply Z.eqb_eq, Er]).
    congruence. }
  intros Href. split.
  - intros k Hk. simpl in Hk. specialize (Href k Hk).
    unfold Database.has_event in *. simpl. rewrite existsb_app, Href. reflexivity.
  - intros h. simpl.
    destruct (find _ _) as [k |] eqn:E; [| reflexivity].
    apply find_some in E as [Hk Ek]. apply key_eqb_eq in Ek. subst k.
    specialize (Href _ Hk). simpl in Href. congruence.
Qed.

(** X11.  Saving an event that has an id: when no row has the id nothing is
    written and no error is raised; otherwise, with one of the three formats,
    the row is overwritten, [Event.get_by_id] reads the object back, and the
    other events, the users and the ledger (also the rows of this event) are
    as before. *)
Theorem save_existing_then_get seq self i db :
  Event.id self = Some i ->
  (Database.has_event i db = false -> Events.save seq self db = inr (self, db))
  /\ (Database.has_event i db = true ->
      Sql.format_ok (Event.format self) = true ->
      exists db',
        Events.save seq self db = inr (self, db')
        /\ Events.get_by_id i db' = Some self
        /\ (forall j, j <> i -> Events.get_by_id j db' = Events.get_by_id j db)
        /\ Database.users db' = Database.users db
        /\ Database.sent_notifications db' = Database.sent_notifications db
        /\ (Database.wf db -> Database.wf db')
        /\ (Inv.references_ok db -> Inv.references_ok db')).
Proof.
  intros Hid. unfold Events.save, Sql.update_event. rewrite Hid.
  fold (Database.has_event i db). split.
  - intros ->. reflexivity.
  - intros Hhas Hfmt. rewrite Hhas, Hfmt. eexists. split; [reflexivity |].
    assert (Hnew : Database.row_id (Sql.row_of i self) = i) by reflexivity.
    split.
    { unfold Events.get_by_id, Sql.select_event. simpl.
      rewrite (find_map_replace i _ _ Hnew i), Z.eqb_refl.
      destruct (find _ _) as [r |] eqn:E.
      - rewrite of_row_row_of, set_id_same; auto.
      - exfalso.
        assert (Database.has_event i db = false).
        { unfold Database.has_event. destruct (existsb _ _) eqn:X; auto.
          apply existsb_exists in X as (r & Hr & Er).
          apply (find_none _ _ E) in Hr. congruence. }
        congruence. }
    split.
    { intros j Hj. unfold Events.get_by_id, Sql.select_event. simpl.
      rewrite (find_map_replace i _ _ Hnew j).
      apply Z.eqb_neq in Hj. rewrite Hj. reflexivity. }
    split; [reflexivity |]. split; [reflexivity |].
    split.
    + intros [W1 W2 W3]. split; simpl; auto.
      rewrite (map_replace_ids i _ _ Hnew). exact W2.
    + intros Href k Hk. simpl in Hk.
      rewrite (has_event_ids db); [apply Href, Hk |].
      simpl. apply (map_replace_ids i _ _ Hnew).
Qed.

(** X12.  [Event.save] and the CHECK on [format]: a save that writes a row
    (a new event, or an event whose row exists) with a format outside the
    three raises the CHECK violation; a store whose rows satisfy the CHECK
    still does after a save that returns; and from such a store every event
    read back has one of the three formats (a NULL column reads as
    ["offline"]). *)
Theorem save_keeps_format_check seq self db :
  (Sql.format_ok (Event.format self) = false ->
   match Event.id self with
   | Some i => Database.has_event i db = true
   | None => True
   end ->
   Events.save seq self db = inl Sql.events_format_check)
  /\ (forall saved db',
        Events.save seq self db = inr (saved, db') ->
        Inv.formats_ok db -> Inv.formats_ok db')
  /\ (Inv.formats_ok db ->
      (forall e, In e (Events.get_all db) -> Sql.format_ok (Event.format e) = true)
      /\ (forall i e, Events.get_by_id i db = Some e ->
                      Sql.format_ok (Event.format e) = true)).
Proof.
  split; [| split].
  - intros F Hrow. unfold Events.save, Sql.insert_event, Sql.update_event.
    destruct (Event.id self) as [i |].
    + fold (Database.has_event i db). rewrite Hrow, F. reflexivity.
    + rewrite F. reflexivity.
  - intros saved db'. unfold Events.save, Sql.insert_event, Sql.update_event.
    destruct (Event.id self) as [i |].
    + destruct (existsb _ _); [| intros [= _ <-]; auto].
      destruct (Sql.format_ok (Event.format self)) eqn:F; [| discriminate].
      intros [= _ <-] Hf r Hr. simpl in Hr. apply in_map_iff in Hr as (x & <- & Hx).
      destruct (Database.row_id x =? i); [simpl; exact F | apply Hf, Hx].
    + destruct (Sql.format_ok (Event.format self)) eqn:F; [| discriminate].
      cbv zeta. intros [= _ <-] Hf r Hr. simpl in Hr.
      apply in_app_or in Hr as [Hr | [<- | []]]; [apply Hf, Hr | simpl; exact F].
  - intros Hf.
    assert (Hrow : forall r, In r (Database.events db) ->
                     Sql.format_ok (Event.format (Event.of_row r)) = true).
    { intros r Hr. specialize (Hf r Hr). simpl.
      destruct (Database.row_format r) as [f |]; [| reflexivity].
      simpl. rewrite (format_ok_truthy _ Hf). exact Hf. }
    split.
    + intros e He. unfold Events.get_all, Sql.select_all_events in He.
      apply in_map_iff in He as (r & <- & Hr). apply Hrow.
      apply (Permutation_in _ (order_by_datetime_perm _)), Hr.
    + intros i e. unfold Events.get_by_id, Sql.select_event.
      destruct (find _ _) as [r |] eqn:E; [| discriminate].
      intros [= <-]. apply Hrow. apply find_some in E. tauto.
Qed.

Lemma delete_event_select i db j :
  Sql.select_event j (Sql.delete_event i db)
  = if j =? i then None else Sql.select_event j db.
Proof.
  unfold Sql.select_event, Sql.delete_event. simpl.
  induction (Database.events db) as [| r l IH]; simpl.
  - destruct (j =? i); reflexivity.
  - destruct (Z.eqb_spec (Database.row_id r) i) as [E | E]; simpl;
      rewrite ?IH;
      destruct (Z.eqb_spec j i) as [Ej | Ej];
      destruct (Z.eqb_spec (Database.row_id r) j) as [E' | E'];
      try reflexivity; congruence.
Qed.

Lemma delete_event_sent i db j h :
  Database.select_sent (Some j) h (Sql.delete_event i db)
  = if j =? i then None else Database.select_sent (Some j) h db.
Proof.
  unfold Database.select_sent, Sql.delete_event. simpl.
  induction (Database.sent_notifications db) as [| k l IH]; simpl.
  - destruct (j =? i); reflexivity.
  - destruct k as [a b]. cbn [fst].
    assert (Ek : Database.key_eqb (j, h) (a, b) = (j =? a) && (h =? b))
      by reflexivity.
    destruct (Z.eqb_spec a i) as [Ea | Ea]; simpl; rewrite ?IH, Ek;
      destruct (Z.eqb_spec j i) as [Ej | Ej];
      destruct (Z.eqb_spec j a) as [Eja | Eja]; simpl;
      try reflexivity; try congruence;
      destruct (h =? b); reflexivity.
Qed.

Lemma delete_event_has i db j :
  Database.has_event j (Sql.delete_event i db)
  = negb (j =? i) && Database.has_event j db.
Proof.
  unfold Database.has_event, Sql.delete_event. simpl.
  induction (Database.events db) as [| r l IH]; simpl.
  - rewrite andb_false_r. reflexivity.
  - destruct (Z.eqb_spec (Database.row_id r) i) as [E | E]; simpl;
      rewrite IH;
      destruct (Z.eqb_spec j i) as [Ej | Ej];
      destruct (Z.eqb_spec (Database.row_id r) j) as [E' | E']; simpl;
      try reflexivity; congruence.
Qed.

Lemma delete_event_wf i db : Database.wf db -> Database.wf (Sql.delete_event i db).
Proof.
  intros [W1 W2 W3]. split; simpl; auto.
  - apply NoDup_map_filter, W2.
  - apply NoDup_filter, W3.
Qed.

Lemma delete_event_references i db :
  Inv.references_ok db -> Inv.references_ok (Sql.delete_event i db).
Proof.
  intros H k Hk. rewrite delete_event_has.
  simpl in Hk. apply filter_In in Hk as [Hk Hne].
  rewrite Hne. simpl. apply H, Hk.
Qed.

(** X13.  [Event.delete] of an event with an id removes the event and, through the
    cascade, every ledger row of it; the other events with their ledger rows
    and the users are as before and the invariants of the store are kept.
    An object without an id deletes nothing. *)
Theorem delete_cascades self db :
  match Event.id self with
  | None => Events.delete self db = db
  | Some i =>
      let db' := Events.delete self db in
      Events.get_by_id i db' = None
      /\ (forall h, Database.select_sent (Some i) h db' = None)
      /\ (forall j, j <> i ->
            Events.get_by_id j db' = Events.get_by_id j db
            /\ forall h, Database.select_sent (Some j) h db'
                         = Database.select_sent (Some j) h db)
      /\ Database.users db' = Database.users db
      /\ (Database.wf db -> Database.wf db')
      /\ (Inv.references_ok db -> Inv.references_ok db')
  end.
Proof.
  unfold Events.delete. destruct (Event.id self) as [i |]; [| reflexivity].
  cbv zeta. split.
  { unfold Events.get_by_id. rewrite delete_event_select, Z.eqb_refl. reflexivity. }
  split.
  { intros h. rewrite delete_event_sent, Z.eqb_refl. reflexivity. }
  split.
  { intros j Hj. apply Z.eqb_neq in Hj. split.
    - unfold Events.get_by_id. rewrite delete_event_select, Hj. reflexivity.
    - intros h. rewrite delete_event_sent, Hj. reflexivity. }
  split; [reflexivity |].
  split; [apply delete_event_wf | apply delete_event_references].
Qed.

(** X14.  A deleted event is out of the reminder engine for good: a later scan
    reaches no pair of an event with that id and leaves no ledger row for
    it. *)
Theorem deleted_event_not_reminded self i db f now :
  Event.id self = Some i ->
  let scan := check_and_send_reminders (alone f) now (Events.delete self db) in
  (forall event h, In (Invoked event h) (M.effects scan) -> Event.id event <> Some i)
  /\ (forall h, ~ In (i, h) (Database.sent_notifications (M.store scan))).
Proof.
  intros Hid scan. subst scan. unfold Events.delete. rewrite Hid.
  set (scan := check_and_send_reminders (alone f) now (Sql.delete_event i db)).
  assert (Hgone : Database.has_event i (Sql.delete_event i db) = false)
    by (rewrite delete_event_has, Z.eqb_refl; reflexivity).
  split.
  - intros event h H.
    apply scan_send_at in H
      as (e & parsed & h' & db2 & Hev & _ & _ & _ & _ & [H | H] & _);
      try discriminate; [| apply send_upcoming_no_invoked in H; contradiction].
    injection H as <- _.
    destruct (upcoming_stored _ _ _ Hev) as (r & Hr & ->). simpl.
    intros [= E]. apply stored_has_event in Hr. congruence.
  - intros h Hin.
    destruct (scan_grows f now (Sql.delete_event i db))
      as [_ _ (added & E & Hadd & _)].
    fold scan in E. rewrite E in Hin. apply in_app_or in Hin as [Hin | Hin].
    + simpl in Hin. apply filter_In in Hin as [_ Hne]. simpl in Hne.
      rewrite Z.eqb_refl in Hne. discriminate.
    + apply Hadd in Hin. simpl in Hin. congruence.
Qed.

End EventFacts.

(* ================================================================== *)
(** ** Buttons and the callback data read back from them *)

Section KeyboardFacts.

Lemma digit_not_sign c d :
  Datetime.digit c = Some d ->
  Ascii.eqb c "_" = false /\ Ascii.eqb c "-" = false.
Proof.
  intros H. split.
  - destruct (Ascii.eqb_spec c "_") as [-> | _]; [discriminate H | reflexivity].
  - destruct (Ascii.eqb_spec c "-") as [-> | _]; [discriminate H | reflexivity].
Qed.

Lemma digits_no_underscore s : forall acc v,
  Keyboards.digits_value acc s = Some v ->
  Keyboards.after_last_underscore s = None.
Proof.
  induction s as [| c s IH]; intros acc v H; [reflexivity |].
  simpl in H. destruct (Datetime.digit c) as [d |] eqn:Ed; [| discriminate].
  simpl. rewrite (IH _ _ H). destruct (digit_not_sign _ _ Ed) as [-> _].
  reflexivity.
Qed.

Lemma digits_value_acc d : forall p,
  Keyboards.digits_value (Z.pos p) (NilEmpty.string_of_uint d)
  = Some (Z.pos (Pos.of_uint_acc d p)).
Proof.
  induction d as [| d IH | d IH | d IH | d IH | d IH | d IH | d IH | d IH | d IH | d IH];
    intros p; cbn [NilEmpty.string_of_uint Keyboards.digits_value Pos.of_uint_acc];
    [reflexivity | ..];
    match goal with
    | |- context [Datetime.digit ?c] =>
        let v := eval vm_compute in (Datetime.digit c) in
        change (Datetime.digit c) with v
    end;
    cbv iota beta; rewrite <- IH; f_equal; lia.
Qed.

Lemma digits_value_uint d :
  Keyboards.digits_value 0 (NilEmpty.string_of_uint d)
  = Some (Z.of_N (Pos.of_uint d)).
Proof.
  induction d as [| d IH | d IH | d IH | d IH | d IH | d IH | d IH | d IH | d IH | d IH];
    cbn [NilEmpty.string_of_uint Keyboards.digits_value Pos.of_uint];
    [reflexivity | ..];
    match goal with
    | |- context [Datetime.digit ?c] =>
        let v := eval vm_compute in (Datetime.digit c) in
        change (Datetime.digit c) with v
    end;
    cbv iota beta; [exact IH | ..]; apply digits_value_acc.
Qed.

Lemma uint_text_shape d :
  d <> Decimal.Nil ->
  exists c rest, NilEmpty.string_of_uint d = String c rest
                 /\ Ascii.eqb c "-" = false
                 /\ NilZero.string_of_uint d = NilEmpty.string_of_uint d.
Proof.
  intros H. destruct d; [contradiction | ..];
    (do 2 eexists; split; [reflexivity | split; reflexivity]).
Qed.

Lemma positive_text p :
  exists c rest,
    NilZero.string_of_uint (Pos.to_uint p) = String c rest
    /\ Ascii.eqb c "-" = false
    /\ Keyboards.digits_value 0 (String c rest) = Some (Z.pos p).
Proof.
  destruct (uint_text_shape _ (DecimalPos.Unsigned.to_uint_nonnil p))
    as (c & rest & E & Hc & En).
  exists c, rest. rewrite En, E. split; [reflexivity |]. split; [exact Hc |].
  rewrite <- E, digits_value_uint, DecimalPos.Unsigned.of_to. reflexivity.
Qed.

(** [int(str(n)) == n]. *)
Lemma int_of_str n : Keyboards.int_of (Py.str n) = Some n.
Proof.
  unfold Py.str. destruct n as [| p | p]; [reflexivity | |].
  - cbn [Z.to_int NilZero.string_of_int].
    destruct (positive_text p) as (c & rest & -> & Hc & Hv).
    unfold Keyboards.int_of. rewrite Hc. exact Hv.
  - cbn [Z.to_int NilZero.string_of_int].
    destruct (positive_text p) as (c & rest & -> & Hc & Hv).
    unfold Keyboards.int_of. cbn [Ascii.eqb Bool.eqb]. rewrite Hv. reflexivity.
Qed.

Lemma str_no_underscore n : Keyboards.after_last_underscore (Py.str n) = None.
Proof.
  unfold Py.str. destruct n as [| p | p]; [reflexivity | |];
    cbn [Z.to_int NilZero.string_of_int];
    destruct (positive_text p) as (c & rest & -> & Hc & Hv).
  - eapply digits_no_underscore, Hv.
  - change (Keyboards.after_last_underscore (String "-" (String c rest)))
      with (match Keyboards.after_last_underscore (String c rest) with
            | Some t => Some t
            | None => if Ascii.eqb "-" "_" then Some (String c rest) else None
            end).
    rewrite (digits_no_underscore _ _ _ Hv). reflexivity.
Qed.

Lemma last_field_append prefix s :
  Keyboards.after_last_underscore s = None ->
  Keyboards.last_field (prefix ++ "_" ++ s) = s.
Proof.
  intros H. unfold Keyboards.last_field.
  assert (E : Keyboards.after_last_underscore (prefix ++ "_" ++ s) = Some s).
  { induction prefix as [| c prefix IH]; simpl.
    - rewrite H. reflexivity.
    - simpl in IH. rewrite IH. reflexivity. }
  rewrite E. reflexivity.
Qed.

Lemma callback_number_suffix prefix n :
  Keyboards.callback_number (prefix ++ "_" ++ Py.str n) = Some n.
Proof.
  unfold Keyboards.callback_number.
  rewrite last_field_append by apply str_no_underscore. apply int_of_str.
Qed.

Lemma str_inj a b : Py.str a = Py.str b -> a = b.
Proof.
  intros H. pose proof (int_of_str a) as Ha. rewrite H, int_of_str in Ha.
  congruence.
Qed.

(** X15.  What is read back from a button is what the button was built for: the
    handlers' [int(callback.data.split("_")[-1])] returns the event id on
    every button of [get_event_keyboard] and [get_confirm_keyboard], and on
    a button of [get_events_list_keyboard] the id of an event of the page
    shown or the number of the neighbouring page, also for negative
    numbers and whatever the action text is. *)
Theorem buttons_carry_their_number :
  (forall i show_delete row b,
      In row (Keyboards.get_event_keyboard (Some i) show_delete) -> In b row ->
      Keyboards.callback_number (Keyboards.callback_data b) = Some i)
  /\ (forall action i row b,
        In row (Keyboards.get_confirm_keyboard action i) -> In b row ->
        Keyboards.callback_number (Keyboards.callback_data b) = Some i)
  /\ (forall events page per_page row b,
        In row (Keyboards.get_events_list_keyboard events page per_page) ->
        In b row ->
        (exists e, In e (Keyboards.page_events events page per_page)
                   /\ forall i, Event.id e = Some i ->
                        Keyboards.callback_number (Keyboards.callback_data b)
                        = Some i)
        \/ (0 < page
            /\ Keyboards.callback_number (Keyboards.callback_data b)
               = Some (page - 1))
        \/ (page * per_page + per_page < Z.of_nat (List.length events)
            /\ Keyboards.callback_number (Keyboards.callback_data b)
               = Some (page + 1))).
Proof.
  split; [| split].
  - intros i show_delete row b Hrow Hb. unfold Keyboards.get_event_keyboard in Hrow.
    destruct show_delete; simpl in Hrow.
    + destruct Hrow as [<- | [<- | []]]; destruct Hb as [<- | []].
      * apply (callback_number_suffix "delete_event").
      * apply (callback_number_suffix "edit_event").
    + destruct Hrow as [<- | []]; destruct Hb as [<- | []].
      apply (callback_number_suffix "edit_event").
  - intros action i row b [<- | []] [<- | [<- | []]]; cbn [Keyboards.callback_data].
    + apply (callback_number_suffix ("confirm_" ++ action)).
    + apply (callback_number_suffix ("cancel_" ++ action)).
  - intros events page per_page row b Hrow Hb.
    unfold Keyboards.get_events_list_keyboard in Hrow. cbv zeta in Hrow.
    fold (Keyboards.page_events events page per_page) in Hrow.
    assert (Hev : In row (map Keyboards.event_button
                            (Keyboards.page_events events page per_page)) ->
                  exists e, In e (Keyboards.page_events events page per_page)
                            /\ forall i, Event.id e = Some i ->
                                 Keyboards.callback_number (Keyboards.callback_data b)
                                 = Some i).
    { intros H. apply in_map_iff in H as (e & <- & He).
      destruct Hb as [<- | []]. exists e. split; [exact He |].
      intros i ->. apply (callback_number_suffix "view_event"). }
    destruct (0 <? page) eqn:Eback;
      destruct (page * per_page + per_page <? Z.of_nat (List.length events)) eqn:Efwd;
      cbn [app] in Hrow;
      try (apply in_app_or in Hrow as [Hrow | [<- | []]]);
      try (left; apply Hev, Hrow).
    + destruct Hb as [<- | [<- | []]].
      * right; left. split; [apply Z.ltb_lt, Eback |].
        apply (callback_number_suffix "events_page").
      * right; right. split; [apply Z.ltb_lt, Efwd |].
        apply (callback_number_suffix "events_page").
    + destruct Hb as [<- | []].
      right; left. split; [apply Z.ltb_lt, Eback |].
      apply (callback_number_suffix "events_page").
    + destruct Hb as [<- | []].
      right; right. split; [apply Z.ltb_lt, Efwd |].
      apply (callback_number_suffix "events_page").
Qed.

Lemma slice_from start n {A} (l : list A) :
  0 <= start -> 0 <= n ->
  Keyboards.slice l start (start + n)
  = firstn (Z.to_nat n) (skipn (Z.to_nat start) l).
Proof.
  intros Hs Hn. unfold Keyboards.slice, Keyboards.clamp. cbv zeta.
  assert ((start <? 0) = false) as -> by (apply Z.ltb_ge; lia).
  assert ((start + n <? 0) = false) as -> by (apply Z.ltb_ge; lia).
  set (len := Z.of_nat (List.length l)).
  destruct (Z_lt_le_dec start len) as [Hin | Hout].
  - rewrite (Z.min_l start len) by lia.
    destruct (Z_lt_le_dec (start + n) len) as [Hin' | Hout'].
    + rewrite Z.min_l by lia. f_equal. f_equal. lia.
    + rewrite Z.min_r by lia.
      rewrite !firstn_all2; [reflexivity | |]; rewrite length_skipn; unfold len in *; lia.
  - rewrite (Z.min_r start len), Z.min_r by lia.
    rewrite Z.sub_diag. simpl.
    rewrite skipn_all2 by (unfold len in *; lia). rewrite firstn_nil. reflexivity.
Qed.

Lemma page_events_from (events : list Event.t) page per_page :
  0 <= page -> 0 <= per_page ->
  Keyboards.page_events events page per_page
  = firstn (Z.to_nat per_page) (skipn (Z.to_nat page * Z.to_nat per_page) events).
Proof.
  intros Hp Hpp. unfold Keyboards.page_events.
  rewrite slice_from by nia. f_equal. f_equal. nia.
Qed.

Lemma firstn_plus {A} (a b : nat) (l : list A) :
  firstn (a + b) l = (firstn a l ++ firstn b (skipn a l))%list.
Proof.
  revert l. induction a as [| a IH]; intros l; [reflexivity |].
  destruct l as [| x l]; simpl.
  - rewrite firstn_nil. reflexivity.
  - rewrite IH. reflexivity.
Qed.

Lemma pages_concat (events : list Event.t) per_page k :
  0 <= per_page ->
  List.concat (map (fun p => Keyboards.page_events events (Z.of_nat p) per_page)
              (seq 0 k))
  = firstn (k * Z.to_nat per_page) events.
Proof.
  intros Hpp. induction k as [| k IH]; [reflexivity |].
  rewrite seq_S, map_app, concat_app, IH. simpl.
  rewrite page_events_from by lia.
  rewrite Nat2Z.id, app_nil_r, <- firstn_plus. f_equal. lia.
Qed.

Lemma page_nonempty (events : list Event.t) page per_page :
  0 <= page -> 0 < per_page ->
  (Keyboards.page_events events page per_page <> []
   <-> page * per_page < Z.of_nat (List.length events)).
Proof.
  intros Hp Hpp. rewrite page_events_from by lia.
  set (l := firstn _ _).
  assert (Hlen : List.length l
                 = Nat.min (Z.to_nat per_page)
                     (List.length events - Z.to_nat page * Z.to_nat per_page))
    by (unfold l; rewrite length_firstn, length_skipn; reflexivity).
  split.
  - intros H. destruct l as [| x l']; [contradiction |]. simpl in Hlen. nia.
  - intros H E. rewrite E in Hlen. simpl in Hlen. nia.
Qed.

Lemma event_rows_not_forward (l : list Event.t) target :
  existsb (existsb (fun b => String.eqb (Keyboards.callback_data b)
                                ("events_page_" ++ target)))
          (map Keyboards.event_button l) = false.
Proof. induction l as [| e l IH]; simpl; auto. Qed.

(** X16.  Paging through a list of events with [get_events_list_keyboard], for a
    positive page size: the pages from 0 on, put one after the other, are
    the list itself, no event missing, repeated or out of order; and a page
    offers the forward button exactly when the next page has an event. *)
Theorem pages_cover_the_list (events : list Event.t) per_page (Hpp : 0 < per_page) :
  (forall k, Z.of_nat (List.length events) <= Z.of_nat k * per_page ->
     List.concat (map (fun p => Keyboards.page_events events (Z.of_nat p) per_page)
                 (seq 0 k)) = events)
  /\ (forall page, 0 <= page ->
        (Keyboards.has_forward
           (Keyboards.get_events_list_keyboard events page per_page) page = true
         <-> Keyboards.page_events events (page + 1) per_page <> [])).
Proof.
  split.
  - intros k Hk. rewrite pages_concat by lia. apply firstn_all2. nia.
  - intros page Hp. rewrite page_nonempty by lia.
    unfold Keyboards.has_forward, Keyboards.get_events_list_keyboard. cbv zeta.
    replace ((page + 1) * per_page) with (page * per_page + per_page) by ring.
    set (rows := map Keyboards.event_button _).
    assert (Hrows : existsb (existsb (fun b =>
                       String.eqb (Keyboards.callback_data b)
                                  ("events_page_" ++ Py.str (page + 1)))) rows
                    = false) by apply event_rows_not_forward.
    assert (Hback : String.eqb ("events_page_" ++ Py.str (page - 1))
                               ("events_page_" ++ Py.str (page + 1)) = false).
    { apply String.eqb_neq. intros E. simpl in E. injection E as E.
      apply str_inj in E. lia. }
    destruct (Z.ltb_spec (page * per_page + per_page)
                         (Z.of_nat (List.length events))) as [Hlt | Hge].
    + split; [intros _; exact Hlt | intros _].
      destruct (0 <? page); cbn [app]; rewrite existsb_app, Hrows;
        cbn [existsb Keyboards.callback_data orb];
        rewrite String.eqb_refl, ?orb_true_r; reflexivity.
    + split; [| lia]. intros H. exfalso.
      destruct (0 <? page); cbn [app] in H.
      * rewrite existsb_app, Hrows in H.
        cbn [existsb Keyboards.callback_data orb] in H.
        rewrite Hback in H. discriminate.
      * rewrite Hrows in H. discriminate.
Qed.

End KeyboardFacts.

(* ================================================================== *)
(** ** The confirmation of a deletion and the two listings *)

Section ListingFacts.
Context {env : Environment}.
Import NotificationService.

Lemma get_by_id_stored i db :
  Events.get_by_id i db
  = if Database.has_event i db
    then option_map Event.of_row (Sql.select_event i db)
    else None.
Proof.
  unfold Events.get_by_id.
  destruct (Database.has_event i db) eqn:E.
  - destruct (Sql.select_event i db); reflexivity.
  - rewrite (has_event_find _ _ E). reflexivity.
Qed.

(** X17.  Pressing the confirming button that [get_confirm_keyboard("delete", i)]
    shows: the handler reads [i] back from the button, and afterwards event
    [i] is not stored and has no ledger row, whether it was still there
    (then it is deleted with its ledger rows) or already gone (then the
    store is as before); every other event is as before. *)
Theorem confirm_button_deletes i db :
  exists yes no,
    Keyboards.get_confirm_keyboard "delete" i = [[yes; no]]
    /\ let db' := if Database.has_event i db then Sql.delete_event i db else db in
       Admin.confirm_delete_event (Keyboards.callback_data yes) db = Some db'
       /\ Events.get_by_id i db' = None
       /\ (forall j, j <> i -> Events.get_by_id j db' = Events.get_by_id j db)
       /\ (Inv.references_ok db ->
           forall h, Database.select_sent (Some i) h db' = None).
Proof.
  do 2 eexists. split; [reflexivity |]. cbv zeta.
  cbn [Keyboards.callback_data]. unfold Admin.confirm_delete_event.
  assert (Hn : Keyboards.callback_number
                 ("confirm_" ++ "delete" ++ "_" ++ Py.str i) = Some i)
    by apply (callback_number_suffix "confirm_delete" i).
  rewrite Hn, get_by_id_stored.
  destruct (Database.has_event i db) eqn:Ehas.
  - assert (Hrow : exists r, Sql.select_event i db = Some r /\ Database.row_id r = i).
    { unfold Sql.select_event. destruct (find _ _) as [r |] eqn:E.
      - apply find_some in E as [_ E]. apply Z.eqb_eq in E. eauto.
      - apply existsb_exists in Ehas as (r & Hr & Er).
        apply (find_none _ _ E) in Hr. congruence. }
    destruct Hrow as (r & -> & Hr). cbn [option_map].
    unfold Events.delete. cbn [Event.of_row Event.id]. rewrite Hr.
    split; [reflexivity |]. unfold Events.get_by_id.
    split; [rewrite delete_event_select, Z.eqb_refl; reflexivity |].
    split.
    + intros j Hj. apply Z.eqb_neq in Hj. rewrite delete_event_select, Hj. reflexivity.
    + intros _ h. rewrite delete_event_sent, Z.eqb_refl. reflexivity.
  - split; [reflexivity |].
    split; [rewrite get_by_id_stored, Ehas; reflexivity |].
    split; [reflexivity |].
    intros Href h. simpl. destruct (find _ _) as [k |] eqn:E; [| reflexivity].
    apply find_some in E as [Hk Ek]. apply key_eqb_eq in Ek. subst k.
    specialize (Href _ Hk). simpl in Href. congruence.
Qed.

Lemma leb_iff a b :
  String.leb a b = true <-> a = b \/ OrderedTypeEx.String_as_OT.lt a b.
Proof.
  unfold String.leb.
  rewrite <- OrderedTypeEx.String_as_OT.cmp_eq, <- OrderedTypeEx.String_as_OT.cmp_lt.
  unfold OrderedTypeEx.String_as_OT.cmp.
  destruct (String.compare a b); split; intros H; auto; try discriminate;
    destruct H; discriminate.
Qed.

Lemma leb_trans a b c :
  String.leb a b = true -> String.leb b c = true -> String.leb a c = true.
Proof.
  rewrite !leb_iff. intros [-> | H1] [-> | H2]; auto.
  right. eapply OrderedTypeEx.String_as_OT.lt_trans; eauto.
Qed.

Lemma filter_insert_by_datetime t r l :
  filter (fun x => String.leb t (Database.row_event_datetime x))
         (Database.insert_by_datetime r l)
  = if String.leb t (Database.row_event_datetime r)
    then Database.insert_by_datetime r
           (filter (fun x => String.leb t (Database.row_event_datetime x)) l)
    else filter (fun x => String.leb t (Database.row_event_datetime x)) l.
Proof.
  induction l as [| x l IH]; simpl.
  - destruct (String.leb t _); reflexivity.
  - destruct (String.leb (Database.row_event_datetime r)
                         (Database.row_event_datetime x)) eqn:Erx; simpl.
    + destruct (String.leb t (Database.row_event_datetime r)) eqn:Er.
      * rewrite (leb_trans _ _ _ Er Erx). simpl. rewrite Erx. reflexivity.
      * reflexivity.
    + rewrite IH.
      destruct (String.leb t (Database.row_event_datetime x)) eqn:Ex;
        destruct (String.leb t (Database.row_event_datetime r)) eqn:Er;
        simpl; rewrite ?Erx; reflexivity.
Qed.

Lemma filter_order_by_datetime t l :
  filter (fun x => String.leb t (Database.row_event_datetime x))
         (Database.order_by_datetime l)
  = Database.order_by_datetime
      (filter (fun x => String.leb t (Database.row_event_datetime x)) l).
Proof.
  induction l as [| r l IH]; simpl; [reflexivity |].
  rewrite filter_insert_by_datetime, IH.
  destruct (String.leb t _); reflexivity.
Qed.

(** X18.  The two listings agree: [Event.get_upcoming] is [Event.get_all] without
    the events whose [event_datetime] text is below the text of the host's
    clock, in the same order. *)
Theorem upcoming_is_filtered_all now db :
  Event.get_upcoming now db
  = filter (fun e => String.leb (Datetime.isoformat (now + system_utcoffset now))
                                (Event.event_datetime e))
           (Events.get_all db).
Proof.
  unfold Event.get_upcoming, Events.get_all, Database.select_upcoming,
    Sql.select_all_events. cbv zeta.
  rewrite <- filter_order_by_datetime.
  induction (Database.order_by_datetime (Database.events db)) as [| r l IH];
    simpl; [reflexivity |].
  destruct (String.leb _ _); simpl; rewrite IH; reflexivity.
Qed.


End ListingFacts.

(* ================================================================== *)
(** ** The further properties on the scenario of the specification *)

Module MoreExamples.
Import NotificationService.

Lemma store_flags_ok recipients : Inv.flags_ok (Scenario.store_with recipients).
Proof.
  intros u Hu. simpl in Hu. apply in_map_iff in Hu as (x & <- & _).
  right. reflexivity.
Qed.


Lemma scan_calls_are_due_reminders_witness :
  let db := Scenario.store_with [7] in
  let event := Scenario.party Scenario.christmas in
  let c := @delivery event 7 (@reminder_text Scenario.utc event 24) in
  let scan :=
    @check_and_send_reminders Scenario.utc (alone (Scenario.always true))
      Scenario.half_a_minute_late db in
  In (Called c true) (M.effects scan)
  /\ exists event parsed h,
       In event (@Event.get_upcoming Scenario.utc Scenario.half_a_minute_late db)
       /\ @fromisoformat Scenario.utc (Event.event_datetime event) = Some parsed
       /\ In h (@NOTIFICATION_HOURS Scenario.utc)
       /\ Z.abs (Scenario.half_a_minute_late - @Spec.target Scenario.utc parsed h)
          <= 60 * Datetime.usec_per_sec
       /\ @Inv.is_reminder_of Scenario.utc c event h
       /\ In (chat_id_of c) (User.get_subscribed_users db)
       /\ Database.select_sent (Event.id event) h db = None.
Proof.
  intros db event c scan.
  assert (H : In (Called c true) (M.effects scan))
    by (vm_compute; right; left; reflexivity).
  exact (conj H (@scan_calls_are_due_reminders Scenario.utc (Scenario.always true)
                   Scenario.half_a_minute_late db c true H)).
Defined.

Lemma scan_records_delivered_pairs_witness :
  let db := Scenario.store_with [7] in
  let event := Scenario.party Scenario.christmas in
  let scan :=
    @check_and_send_reminders Scenario.utc (alone (Scenario.always true))
      Scenario.half_a_minute_late db in
  In (Invoked event 24) (M.effects scan)
  /\ existsb (@Spec.accepts Scenario.utc (Scenario.always true) event 24)
             (User.get_subscribed_users db) = true
  /\ exists i, Event.id event = Some i
       /\ In (i, 24) (Database.sent_notifications (M.store scan)).
Proof.
  intros db event scan.
  assert (H : In (Invoked event 24) (M.effects scan))
    by (vm_compute; left; reflexivity).
  assert (A : existsb (@Spec.accepts Scenario.utc (Scenario.always true) event 24)
                      (User.get_subscribed_users db) = true) by reflexivity.
  exact (conj H (conj A
           (@scan_records_delivered_pairs Scenario.utc (Scenario.always true)
              Scenario.half_a_minute_late db event 24 H A))).
Defined.

Lemma second_scan_sends_only_undelivered_witness :
  let db := Scenario.store_with [7] in
  let event := Scenario.party Scenario.christmas in
  let now := Scenario.half_a_minute_late in
  let c := @delivery event 7 (@reminder_text Scenario.utc event 24) in
  let failing := @check_and_send_reminders Scenario.utc
                   (alone (Scenario.always false)) now db in
  let retry := @check_and_send_reminders Scenario.utc
                 (alone (Scenario.always true)) now (M.store failing) in
  In (Called c false) (M.effects failing)
  /\ In (Called c true) (M.effects retry)
  /\ (exists event h,
        @Inv.due_pair Scenario.utc now db event h
        /\ @Inv.is_reminder_of Scenario.utc c event h
        /\ In (chat_id_of c) (User.get_subscribed_users db)
        /\ Database.select_sent (Event.id event) h (M.store failing) = None
        /\ (In (Invoked event h) (M.effects failing) ->
            existsb (@Spec.accepts Scenario.utc (Scenario.always false) event h)
                    (User.get_subscribed_users db) = false))
  /\ In (1, 24) (Database.sent_notifications (M.store retry)).
Proof.
  intros db event now c failing retry.
  assert (H0 : In (Called c false) (M.effects failing))
    by (vm_compute; right; left; reflexivity).
  assert (H : In (Called c true) (M.effects retry))
    by (vm_compute; right; left; reflexivity).
  assert (Hin : In (1, 24) (Database.sent_notifications (M.store retry)))
    by (vm_compute; left; reflexivity).
  exact (conj H0 (conj H
           (conj (proj1 (@second_scan_sends_only_undelivered Scenario.utc
                           (Scenario.always false) (Scenario.always true) now now db)
                    c true H)
              Hin))).
Defined.

Lemma subscriber_addressed_once_witness :
  let db := Scenario.store_with [7; 8] in
  Database.wf db
  /\ exists db',
       @Users.subscribe_command Scenario.utc 9 Scenario.T db = inr db'
       /\ (forall event bot,
             Spec.attempts_to 9
               (M.effects (@send_new_event_notification Scenario.utc event
                             (Some bot) db')) = 1%nat)
       /\ (forall event h bot,
             Database.select_sent (Event.id event) h db' = None ->
             Spec.attempts_to 9
               (M.effects (@send_upcoming_event_notification Scenario.utc event h
                             bot db')) = 1%nat).
Proof.
  intros db.
  assert (W : Database.wf db) by (apply Examples.store_with_wf, Examples.two_recipients).
  exact (conj W (@subscriber_addressed_once Scenario.utc 9 Scenario.T db W)).
Defined.

Lemma reported_status_is_fanout_status_witness :
  let db := Scenario.store_with [7; 8] in
  let user := {| Users.telegram_id := 7; Users.is_subscribed := true;
                 Users.registered_at := "2024-12-01T10:00:00" |} in
  Database.wf db
  /\ Inv.flags_ok db
  /\ @Users.get_or_create Scenario.utc 7 Scenario.T db = (inr user, db)
  /\ (Users.is_subscribed user = true <-> In 7 (User.get_subscribed_users db)).
Proof.
  intros db user.
  assert (W : Database.wf db) by (apply Examples.store_with_wf, Examples.two_recipients).
  assert (F : Inv.flags_ok db) by apply store_flags_ok.
  assert (E : @Users.get_or_create Scenario.utc 7 Scenario.T db = (inr user, db))
    by reflexivity.
  exact (conj W (conj F (conj E
           (@reported_status_is_fanout_status Scenario.utc 7 Scenario.T db user db
              W F E)))).
Defined.

Lemma save_new_then_get_witness :
  let db := Scenario.store_with [7] in
  let self := {| Event.id := None; Event.title := "Lecture";
                 Event.description := ""; Event.event_datetime := "2025-01-10T12:00:00";
                 Event.location := ""; Event.format := "online";
                 Event.link := ""; Event.photo_file_id := "" |} in
  Event.id self = None
  /\ Sql.format_ok (Event.format self) = true
  /\ exists i db',
       Events.save 1 self db = inr (Events.set_id i self, db')
       /\ 1 < i
       /\ Database.has_event i db = false
       /\ Events.get_by_id i db' = Some (Events.set_id i self)
       /\ (forall j, j <> i -> Events.get_by_id j db' = Events.get_by_id j db)
       /\ Database.users db' = Database.users db
       /\ Database.sent_notifications db' = Database.sent_notifications db
       /\ (Database.wf db -> Database.wf db')
       /\ (Inv.references_ok db ->
           Inv.references_ok db'
           /\ forall h, Database.select_sent (Some i) h db' = None).
Proof.
  intros db self.
  assert (Hid : Event.id self = None) by reflexivity.
  assert (Hf : Sql.format_ok (Event.format self) = true) by reflexivity.
  exact (conj Hid (conj Hf (save_new_then_get 1 self db Hid Hf))).
Defined.

Lemma save_existing_then_get_witness :
  let db := Scenario.store_with [7] in
  let self := Scenario.party "2025-01-10T12:00:00" in
  Event.id self = Some 1
  /\ (Database.has_event 1 db = false -> Events.save 1 self db = inr (self, db))
  /\ (Database.has_event 1 db = true ->
      Sql.format_ok (Event.format self) = true ->
      exists db',
        Events.save 1 self db = inr (self, db')
        /\ Events.get_by_id 1 db' = Some self
        /\ (forall j, j <> 1 -> Events.get_by_id j db' = Events.get_by_id j db)
        /\ Database.users db' = Database.users db
        /\ Database.sent_notifications db' = Database.sent_notifications db
        /\ (Database.wf db -> Database.wf db')
        /\ (Inv.references_ok db -> Inv.references_ok db')).
Proof.
  intros db self.
  assert (Hid : Event.id self = Some 1) by reflexivity.
  exact (conj Hid (save_existing_then_get 1 self 1 db Hid)).
Defined.

Lemma deleted_event_not_reminded_witness :
  let db := Scenario.store_with [7] in
  let self := Scenario.party Scenario.christmas in
  let scan :=
    @check_and_send_reminders Scenario.utc (alone (Scenario.always true))
      Scenario.half_a_minute_late (Events.delete self db) in
  Event.id self = Some 1
  /\ (forall event h, In (Invoked event h) (M.effects scan) -> Event.id event <> Some 1)
  /\ (forall h, ~ In (1, h) (Database.sent_notifications (M.store scan))).
Proof.
  intros db self scan.
  assert (Hid : Event.id self = Some 1) by reflexivity.
  exact (conj Hid (@deleted_event_not_reminded Scenario.utc self 1 db
                     (Scenario.always true) Scenario.half_a_minute_late Hid)).
Defined.

Lemma pages_cover_the_list_witness :
  let events := [Scenario.party Scenario.christmas; Scenario.party Scenario.christmas_msk] in
  0 < 1
  /\ (forall k, Z.of_nat (List.length events) <= Z.of_nat k * 1 ->
        List.concat (map (fun p => Keyboards.page_events events (Z.of_nat p) 1)
                         (seq 0 k)) = events)
  /\ (forall page, 0 <= page ->
        (Keyboards.has_forward
           (Keyboards.get_events_list_keyboard events page 1) page = true
         <-> Keyboards.page_events events (page + 1) 1 <> [])).
Proof.
  intros events.
  assert (Hpp : 0 < 1) by lia.
  exact (conj Hpp (pages_cover_the_list events 1 Hpp)).
Defined.

End MoreExamples.
